(** * wordpress-logins-finder: the probing engine and its glue, embedded in Rocq

    The development follows the layout of the Python package:
    - [utils/constants.py]       : [strip_scheme], [targets_to_check], [Config];
    - [utils/request_manager.py] : [RequestManager], [_fetch], [make_requests],
                                   [probe_target_schema];
    - [logins_finder.py]         : [cli], [write_results_to_file], [main] and the
                                   [__main__] guard.

    Python values that the code branches on are kept with their dynamic type
    ([pyval]); exceptions are classes with their base classes; everything the
    program cannot control (environment variables, command line, network
    replies, the order in which the event loop resumes tasks, the disk) is
    gathered in [World]; what the libraries compute ([yarl.URL], [json.dumps])
    is a parameter of the functions that call them. *)

From stdpp Require Import gmap strings list pretty.

Open Scope Z_scope.

Set Warnings "-register-all".

(** ** Python values and exceptions *)

(** The dynamically typed values the code tests or does arithmetic on. *)
Inductive pyval :=
  | PyInt (z : Z)
  | PyStr (s : string)
  | PyBool (b : bool).

(** Exception classes: the ones the sources name, the aiohttp classes between
    them and [Exception] (aiohttp/client_exceptions.py), and the builtin
    classes raised by the operations the code performs.  [TimeoutError] is
    [asyncio.exceptions.TimeoutError], as imported by request_manager.py. *)
Inductive exc_class :=
  | BaseException | Exception | SystemExit
  | TypeError | ValueError | UnicodeError | UnicodeDecodeError | JSONDecodeError
  | OSError | PermissionError | TimeoutError
  | ClientError | ClientResponseError | ContentTypeError | TooManyRedirects
  | ClientConnectionError | ClientOSError | ClientConnectorError
  | ServerConnectionError | ServerDisconnectedError | ServerTimeoutError
  | ClientPayloadError | InvalidURL.

#[global] Instance exc_class_eq_dec : EqDecision exc_class.
Proof. solve_decision. Defined.

(** The [class X(B1, B2)] headers of the classes above. *)
Definition bases (c : exc_class) : list exc_class :=
  match c with
  | BaseException => []
  | Exception => [BaseException]
  | SystemExit => [BaseException]
  | TypeError => [Exception]
  | ValueError => [Exception]
  | UnicodeError => [ValueError]
  | UnicodeDecodeError => [UnicodeError]
  | JSONDecodeError => [ValueError]
  | OSError => [Exception]
  | PermissionError => [OSError]
  | TimeoutError => [Exception]
  | ClientError => [Exception]
  | ClientResponseError => [ClientError]
  | ContentTypeError => [ClientResponseError]
  | TooManyRedirects => [ClientResponseError]
  | ClientConnectionError => [ClientError]
  | ClientOSError => [ClientConnectionError; OSError]
  | ClientConnectorError => [ClientOSError]
  | ServerConnectionError => [ClientConnectionError]
  | ServerDisconnectedError => [ServerConnectionError]
  | ServerTimeoutError => [ServerConnectionError; TimeoutError]
  | ClientPayloadError => [ClientError]
  | InvalidURL => [ClientError; ValueError]
  end.

(** [issubclass c d], following [bases] upwards; no chain above is longer
    than six classes. *)
Fixpoint issubclass_upto (depth : nat) (c d : exc_class) : bool :=
  bool_decide (c = d) ||
  match depth with
  | O => false
  | S depth' => existsb (fun b => issubclass_upto depth' b d) (bases c)
  end.

Definition issubclass : exc_class -> exc_class -> bool := issubclass_upto 6.

(** [except (C1, C2, ...)] matches a raised exception of class [e]. *)
Definition except_matches (e : exc_class) (handled : list exc_class) : bool :=
  existsb (issubclass e) handled.

(** How a call ends. *)
Inductive outcome (A : Type) :=
  | Returned (v : A)
  | Raised (e : exc_class).
Arguments Returned {A} v.
Arguments Raised {A} e.

(** [bool(v)]. *)
Definition truthy (v : pyval) : bool :=
  match v with
  | PyInt z => negb (z =? 0)
  | PyStr s => negb (String.eqb s "")
  | PyBool b => b
  end.

(** The operand of an arithmetic operator as an integer ([bool] is a subclass
    of [int]); a [str] is not one. *)
Definition as_int (v : pyval) : option Z :=
  match v with
  | PyInt z => Some z
  | PyBool b => Some (if b then 1 else 0)
  | PyStr _ => None
  end.

(** [a - b]: defined on numbers only, [TypeError] otherwise. *)
Definition py_sub (a b : pyval) : pyval + exc_class :=
  match as_int a, as_int b with
  | Some x, Some y => inl (PyInt (x - y))
  | _, _ => inr TypeError
  end.

(** [a + b]: numbers add, strings concatenate, a mix is a [TypeError]. *)
Definition py_add (a b : pyval) : pyval + exc_class :=
  match a, b with
  | PyStr s, PyStr t => inl (PyStr (s +:+ t))
  | _, _ =>
      match as_int a, as_int b with
      | Some x, Some y => inl (PyInt (x + y))
      | _, _ => inr TypeError
      end
  end.

(** ** utils/constants.py *)

(** [s] without its prefix [p], when it has it. *)
Fixpoint strip_prefix (p s : string) : option string :=
  match p with
  | EmptyString => Some s
  | String a p' =>
      match s with
      | EmptyString => None
      | String b s' => if Ascii.eqb a b then strip_prefix p' s' else None
      end
  end.

(** [re.sub(r'^https?://', '', url)]: the pattern can only match at offset 0;
    after [http] the optional [s] is tried first and given up when [://] does
    not follow it. *)
Definition strip_scheme (url : string) : string :=
  match strip_prefix "http" url with
  | None => url
  | Some rest =>
      let with_s :=
        match strip_prefix "s" rest with
        | Some rest_s => strip_prefix "://" rest_s
        | None => None
        end in
      match with_s with
      | Some tail => tail
      | None =>
          match strip_prefix "://" rest with
          | Some tail => tail
          | None => url
          end
      end
  end.

(** [str(i)] for an [int]. *)
Definition str_of_int (i : Z) : string := pretty i.

(** [range(a, b)]. *)
Definition range (a b : Z) : list Z := seqZ a (b - a).

Definition targets_to_check (target : string) : list string :=
  let target_urls := [
    target +:+ "/blog/wp-json/wp/v2/users";
    target +:+ "/blog/?rest_route=/wp/v2/users";
    target +:+ "/wp-json/wp/v2/users";
    target +:+ "/section/news?rest_route=/wp/v2/users";
    target +:+ "/section/news?rest_route=/wp/v2/usErs"
  ] in
  let target_urls :=
    target_urls ++ ((fun i => "/wp-json/wp/v2/users/" +:+ str_of_int i) <$> range 1 1000) in
  let target_urls :=
    target_urls ++ [target +:+ "/wp-json/wp/v2/users?search=admin@" +:+ strip_scheme target] in
  target_urls.

(** [class Config]: its attributes are evaluated once, at import, from the
    process environment.  [os.environ.get(name, default)] gives the variable's
    text, a [str], when it is set and the default object otherwise. *)
Record Config := {
  TIMEOUT : Z;
  TIMEOUT_DEFAULT : Z;
  LIMIT_OF_ATTEMPTS_TO_RETRY : pyval;
  SIMULTANEOUS_CONCURRENT_TASKS : nat;
  REQUESTS_RETRIES_NUM_TO_REMOVE : Z;
  ERRORS_STATUS_CODES : list Z;
  DEFAULT_DEBUGGING : pyval;
  USER_AGENT : string;
  RESULT_FILE_NAME : string
}.

Definition environ_get (environ : gmap string string) (name : string) (default : pyval) : pyval :=
  match environ !! name with
  | Some text => PyStr text
  | None => default
  end.

Definition environ_get_str (environ : gmap string string) (name default : string) : string :=
  match environ !! name with
  | Some text => text
  | None => default
  end.

Definition load_Config (environ : gmap string string) : Config := {|
  TIMEOUT := 5;
  TIMEOUT_DEFAULT := 60;
  LIMIT_OF_ATTEMPTS_TO_RETRY := environ_get environ "LIMIT_OF_ATTEMPTS_TO_RETRY" (PyInt 5);
  SIMULTANEOUS_CONCURRENT_TASKS := 51;
  REQUESTS_RETRIES_NUM_TO_REMOVE := 1;
  ERRORS_STATUS_CODES := [400; 403; 404; 500];
  DEFAULT_DEBUGGING := environ_get environ "DEFAULT_DEBUGGING" (PyBool false);
  USER_AGENT := "Mozilla/5.0 (Windows NT 10.0; WOW64) AppleWebKit/537.36 (KHTML, like Gecko)"
                +:+ " Chrome/85.0.4183.102 Safari/537.36";
  RESULT_FILE_NAME := environ_get_str environ "RESULT_FILE_NAME" "results.json"
|}.

(** ** utils/request_manager.py *)

(** A decoded JSON document (what [response.json()] returns).  Numbers are kept
    as integers; no function below looks inside a body. *)
Inductive json :=
  | JNull
  | JBool (b : bool)
  | JInt (z : Z)
  | JString (s : string)
  | JArray (items : list json)
  | JObject (members : list (string * json)).

(** A [yarl.URL] object.  The code hands it to [session.get] and takes
    [str(url)] of it, nothing else: the object is known by [str], the text
    yarl gives back for it, which need not be the text it was built from. *)
Record URL := { str : string }.

(** The dict [_fetch] returns: [{'url': ..., 'status_code': ..., 'body': ...}]. *)
Record ProbeRecord := {
  url : string;
  status_code : Z;
  body : json
}.

(** What [_fetch] hands back: the dict, or [None] when the function falls off
    its end. *)
Definition fetched := option ProbeRecord.

(** What [await response.json()] does once a response is there. *)
Inductive json_reply :=
  | JsonValue (v : json)
  | JsonRaises (e : exc_class).

(** One pass through [async with session.get(...) as response]: either the
    request raises before a response is there, or a response with a status
    arrives and [decoded] says what reading its body as JSON does (looked at
    only when the code reads the body). *)
Inductive attempt :=
  | GetRaises (e : exc_class)
  | Response (status : Z) (decoded : json_reply).

(** How one iteration of the [while] ends: back to the loop test with the new
    counter (after a handled retryable error), or out of the loop. *)
Inductive iteration :=
  | Continue (attempts_left' : pyval)
  | Finish (o : outcome fetched).

Definition retryable_errors : list exc_class :=
  [ClientConnectorError; ClientResponseError; ServerTimeoutError;
   TimeoutError; ServerDisconnectedError; ClientOSError].

Definition url_fatal_errors : list exc_class :=
  [UnicodeDecodeError; InvalidURL].

(** The [except] clauses of [_fetch], in order, for a raised [e].  An exception
    raised inside the first handler leaves the [try] statement. *)
Definition on_exception (cfg : Config) (attempts_left : pyval) (e : exc_class) : iteration :=
  if except_matches e retryable_errors then
    match py_sub (LIMIT_OF_ATTEMPTS_TO_RETRY cfg) attempts_left with
    | inr err => Finish (Raised err)
    | inl diff =>
        match py_add diff (PyInt (REQUESTS_RETRIES_NUM_TO_REMOVE cfg)) with
        | inr err => Finish (Raised err)
        | inl attempts =>
            match py_sub attempts_left (PyInt (REQUESTS_RETRIES_NUM_TO_REMOVE cfg)) with
            | inr err => Finish (Raised err)
            | inl attempts_left' => Continue attempts_left'
            end
        end
    end
  else if except_matches e url_fatal_errors then Finish (Returned None)
  else Finish (Raised e).

(** The body of the [while]: the [try] statement with its [except] and [else]
    clauses. *)
Definition try_once (cfg : Config) (u : URL) (attempts_left : pyval) (a : attempt) : iteration :=
  match a with
  | GetRaises e => on_exception cfg attempts_left e
  | Response status decoded =>
      if negb (existsb (Z.eqb status) (ERRORS_STATUS_CODES cfg)) then
        match decoded with
        | JsonValue v =>
            Finish (Returned (Some {| url := str u; status_code := status; body := v |}))
        | JsonRaises e => on_exception cfg attempts_left e
        end
      else Finish (Returned None)
  end.

(** The [while left_of_attempts_to_retry:] loop of one worker on its own.
    [reply n] is what the [n]-th GET of this worker meets, [gets] counts the
    GETs issued so far and [failed] is [self._failed_requests_num].  The result
    is the way [_fetch] ends, the number of GETs it issued and the counter. *)
Fixpoint retry_loop (fuel : nat) (cfg : Config) (u : URL) (reply : nat -> attempt)
    (attempts_left : pyval) (gets : nat) (failed : Z) : option (outcome fetched * nat * Z) :=
  if truthy attempts_left then
    match fuel with
    | O => None
    | S fuel' =>
        match try_once cfg u attempts_left (reply gets) with
        | Continue attempts_left' =>
            retry_loop fuel' cfg u reply attempts_left' (S gets)
              (failed + REQUESTS_RETRIES_NUM_TO_REMOVE cfg)
        | Finish o => Some (o, S gets, failed)
        end
    end
  else Some (Returned None, gets, failed).

Definition _fetch (fuel : nat) (cfg : Config) (u : URL) (reply : nat -> attempt)
    (failed : Z) : option (outcome fetched * nat * Z) :=
  retry_loop fuel cfg u reply (LIMIT_OF_ATTEMPTS_TO_RETRY cfg) 0 failed.

(** *** The workers under the event loop

    asyncio runs one task at a time and switches only at an [await].  A worker
    is therefore in one of three places: before [async with self.semaphore]
    lets it in, suspended in a GET while it holds a slot, or finished. *)
Inductive task :=
  | Waiting
  | Awaiting (attempts_left : pyval) (gets : nat)
  | Done (o : outcome fetched) (gets : nat).

(** The [RequestManager] object with the tasks [make_requests] created for it:
    [_semaphore] is the semaphore's count of free slots, [gather_raised] the
    first exception a task ended with, which [asyncio.gather] re-raises. *)
Record RequestManager := {
  _urls : list URL;
  _semaphore : nat;
  _failed_requests_num : Z;
  tasks : list task;
  gather_raised : option exc_class
}.

(** The object [__init__] leaves once the [URL] objects are built, with the
    tasks that [make_requests] creates, one per URL. *)
Definition new_RequestManager (cfg : Config) (urls : list URL) : RequestManager := {|
  _urls := urls;
  _semaphore := SIMULTANEOUS_CONCURRENT_TASKS cfg;
  _failed_requests_num := 0;
  tasks := (fun _ => Waiting) <$> urls;
  gather_raised := None
|}.

(** [RequestManager.__init__]: it starts with [[URL(url) for url in urls]].
    [yarl text] is [URL(text)], the object yarl builds from the text, [None]
    when yarl refuses the text with a [ValueError]. *)
Definition RequestManager_init (yarl : string -> option URL) (cfg : Config)
    (urls : list string) : outcome RequestManager :=
  match mapM yarl urls with
  | Some objects => Returned (new_RequestManager cfg objects)
  | None => Raised ValueError
  end.

(** [BoundedSemaphore.release]: a release above the initial value is a
    [ValueError]. *)
Definition release (bound value : nat) : nat + exc_class :=
  if (bound <=? value)%nat then inr ValueError else inl (S value).

(** Worker [i] leaves [async with self.semaphore] with [o]: the slot is given
    back and the task is done; the first task to end with an exception sets
    what [gather] raises. *)
Definition leave (cfg : Config) (i : nat) (o : outcome fetched) (gets : nat)
    (m : RequestManager) : RequestManager :=
  let '(value, o') :=
    match release (SIMULTANEOUS_CONCURRENT_TASKS cfg) (_semaphore m) with
    | inl value => (value, o)
    | inr err => (_semaphore m, Raised err)
    end in
  {| _urls := _urls m;
     _semaphore := value;
     _failed_requests_num := _failed_requests_num m;
     tasks := <[i := Done o' gets]> (tasks m);
     gather_raised :=
       match gather_raised m, o' with
       | None, Raised e => Some e
       | first, _ => first
       end |}.

(** Worker [i] reaches the loop test with [attempts_left]: it issues its next
    GET and is suspended there, or leaves with [None]. *)
Definition loop_test (cfg : Config) (i : nat) (attempts_left : pyval) (gets : nat)
    (m : RequestManager) : RequestManager :=
  if truthy attempts_left then
    {| _urls := _urls m;
       _semaphore := _semaphore m;
       _failed_requests_num := _failed_requests_num m;
       tasks := <[i := Awaiting attempts_left gets]> (tasks m);
       gather_raised := gather_raised m |}
  else leave cfg i (Returned None) gets m.

(** The setter of the [failed_requests_num] property: it adds [num] to the
    counter. *)
Definition set_failed_requests_num (num : Z) (m : RequestManager) : RequestManager :=
  {| _urls := _urls m;
     _semaphore := _semaphore m;
     _failed_requests_num := _failed_requests_num m + num;
     tasks := tasks m;
     gather_raised := gather_raised m |}.

(** [await self.semaphore.acquire()] when a slot is free. *)
Definition acquired (free : nat) (m : RequestManager) : RequestManager :=
  {| _urls := _urls m;
     _semaphore := free;
     _failed_requests_num := _failed_requests_num m;
     tasks := tasks m;
     gather_raised := gather_raised m |}.

(** The event loop resumes worker [i] and runs it to its next [await].
    [net i n] is what the [n]-th GET for the [i]-th URL meets.  A worker that
    waits for a slot while none is free stays where it is. *)
Definition resume (cfg : Config) (net : nat -> nat -> attempt) (i : nat)
    (m : RequestManager) : RequestManager :=
  match tasks m !! i, _urls m !! i with
  | Some Waiting, Some _ =>
      match _semaphore m with
      | O => m
      | S free => loop_test cfg i (LIMIT_OF_ATTEMPTS_TO_RETRY cfg) 0 (acquired free m)
      end
  | Some (Awaiting attempts_left gets), Some u =>
      match try_once cfg u attempts_left (net i gets) with
      | Continue attempts_left' =>
          loop_test cfg i attempts_left' (S gets)
            (set_failed_requests_num (REQUESTS_RETRIES_NUM_TO_REMOVE cfg) m)
      | Finish o => leave cfg i o (S gets) m
      end
  | _, _ => m
  end.

(** A worker the loop can resume: one whose GET is in flight (its reply can
    arrive), or one waiting for a slot while a slot is free. *)
Definition runnable (m : RequestManager) (t : task) : bool :=
  match t with
  | Waiting => (0 <? _semaphore m)%nat
  | Awaiting _ _ => true
  | Done _ _ => false
  end.

(** The positions, counted from [i], of the tasks of [ts] that satisfy [p]. *)
Fixpoint positions (p : task -> bool) (i : nat) (ts : list task) : list nat :=
  match ts with
  | [] => []
  | t :: ts' => if p t then i :: positions p (S i) ts' else positions p (S i) ts'
  end.

Definition ready (m : RequestManager) : list nat :=
  positions (runnable m) 0 (tasks m).

(** The order of resumptions is not the program's choice: [choices] picks, at
    each turn, one of the workers that can run.  Once a task has ended with an
    exception [gather] raises in [make_requests] and the scan is over. *)
Fixpoint run (cfg : Config) (net : nat -> nat -> attempt) (choices : list nat)
    (m : RequestManager) : RequestManager :=
  match choices with
  | [] => m
  | c :: choices' =>
      match gather_raised m with
      | Some _ => m
      | None =>
          match ready m with
          | [] => m
          | i0 :: rest =>
              run cfg net choices'
                (resume cfg net (nth (c mod length (i0 :: rest)) (i0 :: rest) i0) m)
          end
      end
  end.

Definition task_result (t : task) : option fetched :=
  match t with
  | Done (Returned v) _ => Some v
  | _ => None
  end.

(** [await asyncio.gather] over the tasks: the first exception of a task, or,
    when every task has returned, their values in the order of the tasks.
    [None]: some task has not finished yet. *)
Definition gather (m : RequestManager) : option (outcome (list fetched)) :=
  match gather_raised m with
  | Some e => Some (Raised e)
  | None => Returned <$> mapM task_result (tasks m)
  end.

Definition make_requests (cfg : Config) (net : nat -> nat -> attempt) (choices : list nat)
    (self : RequestManager) : option (outcome (list fetched)) * RequestManager :=
  let self' := run cfg net choices self in
  (gather self', self').

Definition create_make_requests (yarl : string -> option URL) (cfg : Config)
    (urls : list string) (net : nat -> nat -> attempt) (choices : list nat)
    : option (outcome (list fetched)) :=
  match RequestManager_init yarl cfg urls with
  | Raised e => Some (Raised e)
  | Returned obj => fst (make_requests cfg net choices obj)
  end.

(** The reply to the single GET of [probe_target_schema]. *)
Inductive probe_reply :=
  | ProbeResponse (has_headers : bool)
  | ProbeRaises (e : exc_class).

Definition probe_target_schema (get : string -> probe_reply) (target : string) : outcome string :=
  match get ("https://" +:+ target) with
  | ProbeResponse has_headers => Returned (if has_headers then "https" else "http")
  | ProbeRaises e =>
      if except_matches e [ClientConnectorError] then Returned "http" else Raised e
  end.

(** ** logins_finder.py *)

(** The options present on the command line, as argparse recognises them. *)
Record CmdLine := {
  given_help : bool;
  given_domain : option string;
  given_verbose : bool;
  given_output : option string
}.

Record Namespace := {
  ns_domain : string;
  ns_verbose : pyval;
  ns_output : string
}.

Record RunConfig := {
  domain : string;
  verbose : pyval;
  output : string
}.

Definition define_config_from_cmd (parsed_args : Namespace) : RunConfig := {|
  domain := ns_domain parsed_args;
  verbose := ns_verbose parsed_args;
  output := ns_output parsed_args
|}.

(** [cli]: argparse ends the process through [SystemExit] when [-h] is given
    (after printing the help) and when the required [--domain] is missing;
    [--verbose] is a [store_true] flag and [--output] a string, both with
    their defaults taken from [Config]. *)
Definition cli (cfg : Config) (argv : CmdLine) : outcome Namespace :=
  if given_help argv then Raised SystemExit
  else
    match given_domain argv with
    | None => Raised SystemExit
    | Some d =>
        Returned {|
          ns_domain := d;
          ns_verbose := if given_verbose argv then PyBool true else DEFAULT_DEBUGGING cfg;
          ns_output := default (RESULT_FILE_NAME cfg) (given_output argv)
        |}
    end.

(** utils/logger_formater.py, [logger_initialisation]: the level is the
    [LOGLEVEL] variable when set, else [debug and 'DEBUG' or 'INFO'];
    [Logger.setLevel] raises [ValueError] on a name that is not a level. *)
Definition level_names : list string :=
  ["CRITICAL"; "FATAL"; "ERROR"; "WARN"; "WARNING"; "INFO"; "DEBUG"; "NOTSET"].

Definition logger_initialisation (environ : gmap string string) (debug : pyval) : outcome unit :=
  let debug_level := if truthy debug then "DEBUG" else "INFO" in
  let level := environ_get_str environ "LOGLEVEL" debug_level in
  if existsb (String.eqb level) level_names then Returned () else Raised ValueError.

(** The line feed, ['\n']. *)
Definition line_feed : Ascii.ascii := Ascii.ascii_of_nat 10.

(** [result.replace('\n', '')]: the text without its line feeds. *)
Fixpoint remove_newlines (s : string) : string :=
  match s with
  | EmptyString => EmptyString
  | String c s' =>
      if Ascii.eqb c line_feed then remove_newlines s'
      else String c (remove_newlines s')
  end.

(** utils/logger_formater.py, [OneLineExceptionFormatter.format]: [formatted]
    is what [logging.Formatter.format] gives for the record and [exc_text] the
    record's [exc_text] after that call, [None] or a [str]. *)
Definition format (formatted : string) (exc_text : option string) : string :=
  match exc_text with
  | Some text => if negb (String.eqb text "") then remove_newlines formatted else formatted
  | None => formatted
  end.

(** The files of the disk, and the paths that cannot be opened for writing. *)
Record Disk := {
  files : gmap string string;
  unwritable : gset string
}.

(** [with open(path, 'w') as file: file.write(text)]. *)
Definition open_and_write (path text : string) (d : Disk) : outcome unit * Disk :=
  if decide (path ∈ unwritable d) then (Raised PermissionError, d)
  else (Returned (), {| files := <[path := text]> (files d); unwritable := unwritable d |}).

(** [bool(r)] for a result of [_fetch]: [None] is false, and the dict, which
    has three keys, is true. *)
Definition result_truthy (r : fetched) : bool :=
  match r with
  | Some _ => true
  | None => false
  end.

(** Everything a run depends on and the program does not decide. *)
Record World := {
  environ : gmap string string;
  argv : CmdLine;
  https_get : string -> probe_reply;
  network : nat -> nat -> attempt;
  choices : list nat;
  disk : Disk
}.

Section Sink.

(** [URL(text)] of yarl, [None] when it raises. *)
Variable yarl : string -> option URL.

(** [json.dumps] on a list of results. *)
Variable json_dumps : list fetched -> string.

Definition write_results_to_file (cfg : Config) (results : list fetched) (d : Disk)
    : outcome unit * Disk :=
  open_and_write (RESULT_FILE_NAME cfg) (json_dumps results) d.

(** [main]; [None] when the event loop has not finished within [choices]. *)
Definition main (w : World) : option (outcome unit * Disk) :=
  let cfg := load_Config (environ w) in
  match cli cfg (argv w) with
  | Raised e => Some (Raised e, disk w)
  | Returned args =>
      let run_config := define_config_from_cmd args in
      match logger_initialisation (environ w) (verbose run_config) with
      | Raised e => Some (Raised e, disk w)
      | Returned _ =>
          match probe_target_schema (https_get w) (domain run_config) with
          | Raised e => Some (Raised e, disk w)
          | Returned schema =>
              let target := schema +:+ "://" +:+ domain run_config in
              let possible_urls := targets_to_check target in
              match create_make_requests yarl cfg possible_urls (network w) (choices w) with
              | None => None
              | Some (Raised e) => Some (Raised e, disk w)
              | Some (Returned results) =>
                  let results := filter (fun r => Is_true (result_truthy r)) results in
                  Some (write_results_to_file cfg results (disk w))
              end
          end
      end
  end.

(** How the process ends: its exit status, the exceptions handed to
    [logging.exception], and the disk. *)
Record Exit := {
  exit_status : Z;
  logged_exceptions : list exc_class;
  disk_after : Disk
}.

(** The [if __name__ == '__main__'] block.  An exception that
    [except Exception] does not match leaves the interpreter: for argparse's
    [SystemExit] the status is 0 after [-h] and 2 after a usage error, for
    anything else it is 1; in every other case the script runs to its end. *)
Definition script (w : World) : option Exit :=
  match main w with
  | None => None
  | Some (Returned _, d) =>
      Some {| exit_status := 0; logged_exceptions := []; disk_after := d |}
  | Some (Raised error, d) =>
      if except_matches error [Exception] then
        Some {| exit_status := 0; logged_exceptions := [error]; disk_after := d |}
      else
        Some {| exit_status :=
                  if decide (error = SystemExit)
                  then (if given_help (argv w) then 0 else 2)
                  else 1;
                logged_exceptions := []; disk_after := d |}
  end.

End Sink.

(** ** Auxiliary notions used by the statements *)

(** The exception the body of the [try] raises on a reply, if it raises one:
    from the GET itself, or from [response.json()] when the status lets the
    code read the body. *)
Definition raised_in_try (cfg : Config) (a : attempt) : option exc_class :=
  match a with
  | GetRaises e => Some e
  | Response status decoded =>
      if negb (existsb (Z.eqb status) (ERRORS_STATUS_CODES cfg)) then
        match decoded with
        | JsonValue _ => None
        | JsonRaises e => Some e
        end
      else None
  end.

(** One for a worker whose GET is in flight, which is when it holds a slot of
    the semaphore. *)
Definition in_flight_task (t : task) : nat :=
  match t with
  | Awaiting _ _ => 1
  | _ => 0
  end.

Definition in_flight (m : RequestManager) : nat :=
  sum_list (in_flight_task <$> tasks m).

(** The points of the loop of one worker on its own: [at_iteration l g k] when
    the loop test is reached with counter [l] after [g] GETs, [k] having been
    added to the failure counter. *)
Inductive at_iteration (cfg : Config) (u : URL) (reply : nat -> attempt)
    : pyval -> nat -> Z -> Prop :=
  | at_first : at_iteration cfg u reply (LIMIT_OF_ATTEMPTS_TO_RETRY cfg) 0 0
  | at_next attempts_left gets k attempts_left' :
      at_iteration cfg u reply attempts_left gets k ->
      truthy attempts_left = true ->
      try_once cfg u attempts_left (reply gets) = Continue attempts_left' ->
      at_iteration cfg u reply attempts_left' (S gets)
        (k + REQUESTS_RETRIES_NUM_TO_REMOVE cfg).

(** [sum(ks)]. *)
Definition total (ks : list Z) : Z := foldr Z.add 0 ks.

(** A task of the event loop is where the loop of that worker, run on its own
    from a failure counter of 0, can be, [k] being what that loop has added to
    the counter by then. *)
Definition task_follows_loop (cfg : Config) (u : URL) (reply : nat -> attempt)
    (t : task) (k : Z) : Prop :=
  match t with
  | Waiting => k = 0
  | Awaiting attempts_left gets =>
      truthy attempts_left = true /\ at_iteration cfg u reply attempts_left gets k
  | Done o gets => exists fuel, _fetch fuel cfg u reply 0 = Some (o, gets, k)
  end.

(** What holds of the manager whatever the event loop does: one task per URL,
    the free slots and the workers in flight add up to the semaphore's bound,
    every task follows the loop of its URL, and the failure counter is the sum
    of what the workers have added. *)
Definition consistent (cfg : Config) (net : nat -> nat -> attempt) (m : RequestManager) : Prop :=
  length (tasks m) = length (_urls m)
  /\ (in_flight m + _semaphore m = SIMULTANEOUS_CONCURRENT_TASKS cfg)%nat
  /\ exists added : list Z,
       length added = length (tasks m)
       /\ _failed_requests_num m = total added
       /\ forall i t u k, tasks m !! i = Some t -> _urls m !! i = Some u ->
            added !! i = Some k -> task_follows_loop cfg u (net i) t k.

(** Every exception an attempt raises is caught by one of the two [except]
    clauses of [_fetch]. *)
Definition handled_network (cfg : Config) (net : nat -> nat -> attempt) : Prop :=
  forall i n e, raised_in_try cfg (net i n) = Some e ->
    except_matches e (retryable_errors ++ url_fatal_errors) = true.

(** An upper bound on the resumptions a task still needs under the default
    budget of five: one to get its slot and one per GET. *)
Definition resumptions_left (t : task) : nat :=
  match t with
  | Waiting => 6
  | Awaiting (PyInt z) _ => Z.to_nat z
  | Awaiting _ _ => 0
  | Done _ _ => 0
  end.

Definition work_left (m : RequestManager) : nat :=
  sum_list (resumptions_left <$> tasks m).

Definition within_budget (t : task) : Prop :=
  match t with
  | Waiting => True
  | Awaiting attempts_left _ => exists z, attempts_left = PyInt z /\ 1 <= z <= 5
  | Done o _ => exists v, o = Returned v
  end.

(** Where a resumed worker is at its next [await]: [resume] seen from the
    worker alone. *)
Definition next_task (cfg : Config) (u : URL) (reply : nat -> attempt) (t : task) : task :=
  match t with
  | Waiting =>
      if truthy (LIMIT_OF_ATTEMPTS_TO_RETRY cfg)
      then Awaiting (LIMIT_OF_ATTEMPTS_TO_RETRY cfg) 0
      else Done (Returned None) 0
  | Awaiting attempts_left gets =>
      match try_once cfg u attempts_left (reply gets) with
      | Continue attempts_left' =>
          if truthy attempts_left' then Awaiting attempts_left' (S gets)
          else Done (Returned None) (S gets)
      | Finish o => Done o (S gets)
      end
  | Done o gets => Done o gets
  end.

(** What [asyncio.gather] will raise once [t] has been reached. *)
Definition first_raised (first : option exc_class) (t : task) : option exc_class :=
  match first, t with
  | None, Done (Raised e) _ => Some e
  | _, _ => first
  end.

(** A manager none of whose workers has met an exception that [_fetch] lets
    through, under the default budget. *)
Definition well_run (cfg : Config) (net : nat -> nat -> attempt) (m : RequestManager) : Prop :=
  consistent cfg net m
  /\ gather_raised m = None
  /\ forall i t, tasks m !! i = Some t -> within_budget t.

(** [e] is raised by the part of [main] that precedes the scan: the parsing of
    the arguments, the initialisation of the logger or the scheme probe. *)
Definition raised_by_setup (w : World) (e : exc_class) : Prop :=
  match cli (load_Config (environ w)) (argv w) with
  | Raised e' => e' = e
  | Returned args =>
      match logger_initialisation (environ w) (ns_verbose args) with
      | Raised e' => e' = e
      | Returned _ => probe_target_schema (https_get w) (ns_domain args) = Raised e
      end
  end.

(** The counter of a worker in flight is an integer between one and the
    default budget. *)
Definition within_int_budget (t : task) : Prop :=
  match t with
  | Awaiting attempts_left _ => exists z, attempts_left = PyInt z /\ 1 <= z <= 5
  | _ => True
  end.

(** A task that ended with an exception has been seen by [gather]. *)
Definition raised_is_recorded (m : RequestManager) : Prop :=
  forall i e gets, tasks m !! i = Some (Done (Raised e) gets) -> gather_raised m <> None.

(** What holds of the manager under the default budget, for every network. *)
Definition budgeted (cfg : Config) (net : nat -> nat -> attempt) (m : RequestManager) : Prop :=
  consistent cfg net m
  /\ raised_is_recorded m
  /\ forall i t, tasks m !! i = Some t -> within_int_budget t.

(** The exception [gather] holds is one that a finished task ended with. *)
Definition raised_has_source (m : RequestManager) : Prop :=
  forall e, gather_raised m = Some e ->
    exists i gets, tasks m !! i = Some (Done (Raised e) gets).

(** The counter of a worker in flight when the budget is a [str]. *)
Definition within_str_budget (t : task) : Prop :=
  match t with
  | Awaiting attempts_left _ => exists text, attempts_left = PyStr text
  | _ => True
  end.

(** An upper bound on the resumptions a task still needs under a [str]
    budget: one to get its slot and one for its only GET. *)
Definition str_resumptions_left (t : task) : nat :=
  match t with
  | Waiting => 2
  | Awaiting _ _ => 1
  | Done _ _ => 0
  end.

(** A manager whose tasks all satisfy [ok] and whose [gather] knows exactly
    the exceptions of its tasks. *)
Definition orderly (ok : task -> Prop) (cfg : Config) (net : nat -> nat -> attempt)
    (m : RequestManager) : Prop :=
  consistent cfg net m
  /\ raised_is_recorded m
  /\ raised_has_source m
  /\ forall i t, tasks m !! i = Some t -> ok t.

(** ** Sample runs *)

(** [URL(text)] for a text that yarl gives back as it is, which is what it
    does with the lower-case ASCII URLs of the sample runs. *)
Definition plain_yarl (text : string) : option URL := Some {| str := text |}.

Definition sample_urls : list string :=
  [ "https://example.com/blog/wp-json/wp/v2/users";
    "https://example.com/wp-json/wp/v2/users";
    "/wp-json/wp/v2/users/1" ].

Definition sample_objects : list URL :=
  (fun text => {| str := text |}) <$> sample_urls.

Definition users_endpoint : URL :=
  {| str := "https://example.com/wp-json/wp/v2/users" |}.

Definition admin_body : json :=
  JObject [("id", JInt 1); ("name", JString "admin")].

(** The first URL keeps dropping the connection, the second answers with a
    user list, the third is refused by the client as not a URL. *)
Definition sample_network (i n : nat) : attempt :=
  match i with
  | 0%nat => GetRaises ServerDisconnectedError
  | 1%nat => Response 200 (JsonValue admin_body)
  | _ => GetRaises InvalidURL
  end.

(** A run against [sample_network]. *)
Definition sample_world : World := {|
  environ := ∅;
  argv := {| given_help := false;
             given_domain := Some "example.com";
             given_verbose := true;
             given_output := None |};
  https_get := fun _ => ProbeRaises ClientConnectorError;
  network := sample_network;
  choices := seq 0 (6 * 1005);
  disk := {| files := ∅; unwritable := ∅ |}
|}.

(** The first URL answers 200 with a body that is not JSON. *)
Definition broken_json_network (i n : nat) : attempt :=
  match i with
  | 0%nat => Response 200 (JsonRaises JSONDecodeError)
  | _ => Response 200 (JsonValue admin_body)
  end.

(** The first URL answers 200 and [response.json()] raises [e] on its body. *)
Definition broken_body_network (e : exc_class) (i n : nat) : attempt :=
  match i with
  | 0%nat => Response 200 (JsonRaises e)
  | _ => Response 200 (JsonValue admin_body)
  end.

(** [https://example.com]: the plain endpoint lists the users, the 999
    path-only candidates are refused as URLs, everything else is a 404. *)
Definition scenario_network (i n : nat) : attempt :=
  if (i =? 2)%nat then Response 200 (JsonValue admin_body)
  else if ((5 <=? i) && (i <? 1004))%nat then GetRaises InvalidURL
  else Response 404 (JsonValue JNull).

(** [logins_finder.py -d example.com -o out.json] on an empty disk. *)
Definition scenario_world : World := {|
  environ := ∅;
  argv := {| given_help := false;
             given_domain := Some "example.com";
             given_verbose := false;
             given_output := Some "out.json" |};
  https_get := fun _ => ProbeResponse true;
  network := scenario_network;
  choices := repeat 0%nat 2010;
  disk := {| files := ∅; unwritable := ∅ |}
|}.

(** [logins_finder.py -d example.com] where [results.json] cannot be opened
    for writing. *)
Definition readonly_world : World := {|
  environ := ∅;
  argv := {| given_help := false;
             given_domain := Some "example.com";
             given_verbose := false;
             given_output := None |};
  https_get := fun _ => ProbeResponse true;
  network := scenario_network;
  choices := repeat 0%nat 2010;
  disk := {| files := ∅; unwritable := {[ "results.json" ]} |}
|}.

(** [logins_finder.py -d example.com] against a site whose plain users endpoint
    answers 200 with a body that is not JSON, everything else as in
    [scenario_network]. *)
Definition broken_json_world : World := {|
  environ := ∅;
  argv := {| given_help := false;
             given_domain := Some "example.com";
             given_verbose := false;
             given_output := None |};
  https_get := fun _ => ProbeResponse true;
  network := fun i n => if (i =? 2)%nat then Response 200 (JsonRaises JSONDecodeError)
                        else scenario_network i n;
  choices := repeat 0%nat 2010;
  disk := {| files := ∅; unwritable := ∅ |}
|}.

(** [logins_finder.py -o out.json]: no [--domain]. *)
Definition no_domain_world : World := {|
  environ := ∅;
  argv := {| given_help := false;
             given_domain := None;
             given_verbose := false;
             given_output := Some "out.json" |};
  https_get := fun _ => ProbeResponse true;
  network := scenario_network;
  choices := [];
  disk := {| files := {[ "results.json" := "[]" ]}; unwritable := ∅ |}
|}.

(** [LOGLEVEL=verbose logins_finder.py -d example.com]. *)
Definition bad_loglevel_world : World := {|
  environ := {[ "LOGLEVEL" := "verbose" ]};
  argv := {| given_help := false;
             given_domain := Some "example.com";
             given_verbose := true;
             given_output := None |};
  https_get := fun _ => ProbeResponse true;
  network := scenario_network;
  choices := [];
  disk := {| files := ∅; unwritable := ∅ |}
|}.

(** [logins_finder.py -d example.com] when the scheme probe times out. *)
Definition probe_timeout_world : World := {|
  environ := ∅;
  argv := {| given_help := false;
             given_domain := Some "example.com";
             given_verbose := false;
             given_output := None |};
  https_get := fun _ => ProbeRaises ServerTimeoutError;
  network := scenario_network;
  choices := [];
  disk := {| files := ∅; unwritable := ∅ |}
|}.

(** ** Facts about the generator *)

Lemma strip_scheme_https (d : string) : strip_scheme ("https://" +:+ d) = d.
Proof. reflexivity. Qed.

Lemma strip_scheme_http (d : string) : strip_scheme ("http://" +:+ d) = d.
Proof. reflexivity. Qed.

(** C9: [targets_to_check t] is, in order, the five fixed variants on [t], the
    999 numbered endpoints [/wp-json/wp/v2/users/1] to [/999] without [t] in
    front (hence the same for every target), and the search-by-admin-email
    endpoint built from [t] and [strip_scheme t]; 1005 URLs in all.  Being a
    function, it gives the same list each time it is applied to [t]. *)
Theorem targets_to_check_shape (t : string) :
  targets_to_check t =
    [ t +:+ "/blog/wp-json/wp/v2/users";
      t +:+ "/blog/?rest_route=/wp/v2/users";
      t +:+ "/wp-json/wp/v2/users";
      t +:+ "/section/news?rest_route=/wp/v2/users";
      t +:+ "/section/news?rest_route=/wp/v2/usErs" ]
    ++ ((fun i => "/wp-json/wp/v2/users/" +:+ str_of_int i) <$> seqZ 1 999)
    ++ [ t +:+ "/wp-json/wp/v2/users?search=admin@" +:+ strip_scheme t ]
  /\ length (targets_to_check t) = 1005%nat
  /\ targets_to_check t !! 5%nat = Some "/wp-json/wp/v2/users/1"
  /\ targets_to_check t !! 1003%nat = Some "/wp-json/wp/v2/users/999"
  /\ (forall t', take 999 (drop 5 (targets_to_check t)) = take 999 (drop 5 (targets_to_check t')))
  /\ (forall d, targets_to_check ("https://" +:+ d) !! 1004%nat =
        Some ("https://" +:+ d +:+ "/wp-json/wp/v2/users?search=admin@" +:+ d))
  /\ (forall d, targets_to_check ("http://" +:+ d) !! 1004%nat =
        Some ("http://" +:+ d +:+ "/wp-json/wp/v2/users?search=admin@" +:+ d)).
Proof.
  assert (Hshape : targets_to_check t =
    [ t +:+ "/blog/wp-json/wp/v2/users";
      t +:+ "/blog/?rest_route=/wp/v2/users";
      t +:+ "/wp-json/wp/v2/users";
      t +:+ "/section/news?rest_route=/wp/v2/users";
      t +:+ "/section/news?rest_route=/wp/v2/usErs" ]
    ++ ((fun i => "/wp-json/wp/v2/users/" +:+ str_of_int i) <$> seqZ 1 999)
    ++ [ t +:+ "/wp-json/wp/v2/users?search=admin@" +:+ strip_scheme t ]).
  { unfold targets_to_check, range. by rewrite <- app_assoc. }
  split; [exact Hshape|].
  split; [rewrite Hshape, !length_app, length_fmap, length_seqZ; reflexivity|].
  split; [vm_compute; reflexivity|].
  split; [vm_compute; reflexivity|].
  split; [intros t'; vm_compute; reflexivity|].
  split; intros d.
  - vm_compute. reflexivity.
  - vm_compute. reflexivity.
Qed.

(** ** One worker on its own *)

Lemma try_once_raised cfg u attempts_left a e :
  raised_in_try cfg a = Some e ->
  try_once cfg u attempts_left a = on_exception cfg attempts_left e.
Proof.
  destruct a as [e'|status [v|e']]; simpl.
  - by intros [= ->].
  - by destruct (negb _).
  - destruct (negb _); [by intros [= ->]|done].
Qed.

Lemma on_exception_retry cfg (limit z : Z) e :
  LIMIT_OF_ATTEMPTS_TO_RETRY cfg = PyInt limit ->
  except_matches e retryable_errors = true ->
  on_exception cfg (PyInt z) e = Continue (PyInt (z - REQUESTS_RETRIES_NUM_TO_REMOVE cfg)).
Proof. intros Hlimit Hretry. unfold on_exception. by rewrite Hretry, Hlimit. Qed.

Lemma on_exception_url_fatal cfg attempts_left e :
  except_matches e retryable_errors = false ->
  except_matches e url_fatal_errors = true ->
  on_exception cfg attempts_left e = Finish (Returned None).
Proof. intros Hretry Hfatal. unfold on_exception. by rewrite Hretry, Hfatal. Qed.

(** With an integer budget, [k] retryable failures in a row from a counter of
    [k] use it up: [k] more GETs, [k] more on the failure counter, and [None]. *)
Lemma retry_loop_exhausts cfg u reply (limit : Z) (k : nat) :
  LIMIT_OF_ATTEMPTS_TO_RETRY cfg = PyInt limit ->
  REQUESTS_RETRIES_NUM_TO_REMOVE cfg = 1 ->
  forall (fuel gets : nat) (failed : Z),
    (forall n, (gets <= n < gets + k)%nat ->
       exists e, raised_in_try cfg (reply n) = Some e /\
                 except_matches e retryable_errors = true) ->
    (k <= fuel)%nat ->
    retry_loop fuel cfg u reply (PyInt (Z.of_nat k)) gets failed
    = Some (Returned None, (gets + k)%nat, failed + Z.of_nat k).
Proof.
  intros Hlimit Hnum. induction k as [|k IH]; intros fuel gets failed Hreply Hfuel.
  - assert (Hend : retry_loop fuel cfg u reply (PyInt 0) gets failed
                   = Some (Returned None, gets, failed)) by (by destruct fuel).
    change (Z.of_nat 0) with 0. rewrite Hend. f_equal. f_equal; [f_equal|]; lia.
  - destruct fuel as [|fuel]; [lia|].
    destruct (Hreply gets) as (e & Hraised & Hretry); [lia|].
    cbn [retry_loop].
    replace (truthy (PyInt (Z.of_nat (S k)))) with true
      by (symmetry; unfold truthy; apply negb_true_iff, Z.eqb_neq; lia).
    rewrite (try_once_raised _ _ _ _ _ Hraised),
      (on_exception_retry _ _ _ _ Hlimit Hretry), Hnum.
    replace (Z.of_nat (S k) - 1) with (Z.of_nat k) by lia.
    rewrite IH; [|intros n Hn; apply Hreply; lia|lia].
    f_equal. f_equal; [f_equal|]; lia.
Qed.

Lemma load_Config_default_limit (environ : gmap string string) :
  environ !! "LIMIT_OF_ATTEMPTS_TO_RETRY" = None ->
  LIMIT_OF_ATTEMPTS_TO_RETRY (load_Config environ) = PyInt 5.
Proof. intros Hunset. unfold load_Config, environ_get. simpl. by rewrite Hunset. Qed.

(** With the budget variable unset, failures that the first handler catches on
    each of the five GETs end [_fetch] with [None] and five more failures. *)
Lemma fetch_default_exhausts environ u reply failed fuel :
  environ !! "LIMIT_OF_ATTEMPTS_TO_RETRY" = None ->
  (forall n, (n < 5)%nat ->
     exists e, raised_in_try (load_Config environ) (reply n) = Some e /\
               except_matches e retryable_errors = true) ->
  (5 <= fuel)%nat ->
  _fetch fuel (load_Config environ) u reply failed = Some (Returned None, 5%nat, failed + 5).
Proof.
  intros Hunset Hreply Hfuel. unfold _fetch.
  rewrite (load_Config_default_limit _ Hunset).
  apply (retry_loop_exhausts (load_Config environ) u reply 5 5);
    [by apply load_Config_default_limit|done| |done].
  intros n Hn. apply Hreply. lia.
Qed.

(** C2: with [LIMIT_OF_ATTEMPTS_TO_RETRY] unset in the environment, a URL whose
    GETs all raise an exception of one of the six retryable classes makes
    [_fetch] return [None] after five GETs, [failed_requests_num] being five
    higher than before. *)
Theorem fetch_retryable_errors_exhaust_budget environ u reply failed fuel :
  environ !! "LIMIT_OF_ATTEMPTS_TO_RETRY" = None ->
  (forall n, (n < 5)%nat ->
     exists e, reply n = GetRaises e /\ except_matches e retryable_errors = true) ->
  (5 <= fuel)%nat ->
  _fetch fuel (load_Config environ) u reply failed = Some (Returned None, 5%nat, failed + 5).
Proof.
  intros Hunset Hreply Hfuel. apply fetch_default_exhausts; [done| |done].
  intros n Hn. destruct (Hreply n Hn) as (e & -> & Hretry). by exists e.
Qed.

Lemma fetch_retryable_errors_exhaust_budget_witness :
  _fetch 5 (load_Config ∅) {| str := "https://example.com/wp-json/wp/v2/users" |}
    (fun n => if (n mod 2 =? 0)%nat then GetRaises ClientConnectorError
              else GetRaises ServerTimeoutError) 0
  = Some (Returned None, 5%nat, 5).
Proof.
  apply (fetch_retryable_errors_exhaust_budget ∅ _ _ 0 5); [reflexivity| |lia].
  intros n Hn.
  destruct n as [|[|[|[|[|n]]]]]; [| | | | |lia]; eexists; split; reflexivity.
Defined.

(** A reply with a status of [Config.ERRORS_STATUS_CODES] ends the loop at
    once, wherever in the loop it is met. *)
Lemma retry_loop_error_status cfg u reply attempts_left gets failed fuel status decoded :
  truthy attempts_left = true ->
  reply gets = Response status decoded ->
  existsb (Z.eqb status) (ERRORS_STATUS_CODES cfg) = true ->
  retry_loop (S fuel) cfg u reply attempts_left gets failed = Some (Returned None, S gets, failed).
Proof.
  intros Htruthy Hreply Hstatus. cbn [retry_loop].
  rewrite Htruthy, Hreply. unfold try_once. by rewrite Hstatus.
Qed.

(** C3: when the GET of a URL is answered with status 400, 403, 404 or 500,
    [_fetch] ends after that one GET with [None], and [failed_requests_num] is
    what it was. *)
Theorem fetch_error_status_single_get environ u reply failed fuel status decoded :
  truthy (LIMIT_OF_ATTEMPTS_TO_RETRY (load_Config environ)) = true ->
  reply 0%nat = Response status decoded ->
  status ∈ [400; 403; 404; 500] ->
  _fetch (S fuel) (load_Config environ) u reply failed = Some (Returned None, 1%nat, failed).
Proof.
  intros Htruthy Hreply Hstatus. unfold _fetch.
  apply retry_loop_error_status with (status := status) (decoded := decoded); [done..|].
  simpl. set_unfold. destruct_or!; subst; reflexivity.
Qed.

Lemma fetch_error_status_single_get_witness :
  _fetch 1 (load_Config ∅) {| str := "https://example.com/blog/wp-json/wp/v2/users" |}
    (fun _ => Response 404 (JsonValue JNull)) 7
  = Some (Returned None, 1%nat, 7).
Proof.
  apply (fetch_error_status_single_get ∅ _ _ 7 0 404 (JsonValue JNull));
    [reflexivity|reflexivity|set_solver].
Defined.

Lemma load_Config_env_limit (environ : gmap string string) (text : string) :
  environ !! "LIMIT_OF_ATTEMPTS_TO_RETRY" = Some text ->
  LIMIT_OF_ATTEMPTS_TO_RETRY (load_Config environ) = PyStr text.
Proof. intros Hset. unfold load_Config, environ_get. simpl. by rewrite Hset. Qed.

(** C8, what the code does instead: when [LIMIT_OF_ATTEMPTS_TO_RETRY] is set in
    the environment, to any non-empty text, the budget is that [str]; the
    first retryable failure then raises [TypeError] inside the handler
    (a [str] minus a [str]), [_fetch] ends with that exception after one GET
    and nothing is added to the failure counter. *)
Theorem fetch_env_budget_type_error environ text u reply failed fuel e :
  environ !! "LIMIT_OF_ATTEMPTS_TO_RETRY" = Some text ->
  text <> "" ->
  reply 0%nat = GetRaises e ->
  except_matches e retryable_errors = true ->
  _fetch (S fuel) (load_Config environ) u reply failed = Some (Raised TypeError, 1%nat, failed).
Proof.
  intros Hset Htext Hreply Hretry. unfold _fetch.
  rewrite (load_Config_env_limit _ _ Hset). cbn [retry_loop].
  assert (Htruthy : truthy (PyStr text) = true).
  { unfold truthy. apply negb_true_iff, String.eqb_neq, Htext. }
  rewrite Htruthy, Hreply. cbn [try_once]. unfold on_exception.
  by rewrite Hretry, (load_Config_env_limit _ _ Hset).
Qed.

Lemma fetch_env_budget_type_error_witness :
  _fetch 1 (load_Config {[ "LIMIT_OF_ATTEMPTS_TO_RETRY" := "3" ]})
    {| str := "https://example.com/wp-json/wp/v2/users" |}
    (fun _ => GetRaises ClientConnectorError) 0
  = Some (Raised TypeError, 1%nat, 0).
Proof.
  apply (fetch_env_budget_type_error
           {[ "LIMIT_OF_ATTEMPTS_TO_RETRY" := "3" ]} "3" _ _ 0 0 ClientConnectorError);
    [reflexivity|discriminate|reflexivity|reflexivity].
Defined.

(** Which raised classes the second [except] clause gets to see. *)
Lemma on_exception_none_iff cfg attempts_left e :
  on_exception cfg attempts_left e = Finish (Returned None)
  <-> issubclass e UnicodeDecodeError = true \/ issubclass e InvalidURL = true.
Proof.
  unfold on_exception. split.
  - destruct (except_matches e retryable_errors) eqn:Hretry.
    + destruct (py_sub _ attempts_left); [|discriminate].
      destruct (py_add _ _); [|discriminate].
      destruct (py_sub _ _); discriminate.
    + destruct (except_matches e url_fatal_errors) eqn:Hfatal; [|discriminate].
      intros _. unfold except_matches, url_fatal_errors in Hfatal. simpl in Hfatal.
      rewrite orb_false_r in Hfatal. by apply orb_true_iff.
  - intros Hclass.
    assert (Hfatal : except_matches e url_fatal_errors = true).
    { unfold except_matches, url_fatal_errors. simpl.
      rewrite orb_false_r. by apply orb_true_iff. }
    assert (Hretry : except_matches e retryable_errors = false).
    { destruct e; try reflexivity; destruct Hclass; discriminate. }
    by rewrite Hretry, Hfatal.
Qed.

(** C10, as amended: of the exceptions an attempt can raise, exactly the
    instances of [UnicodeDecodeError] and [InvalidURL] end [_fetch] at once
    with [None].  [ContentTypeError] derives from [ClientResponseError], so it
    goes to the retry handler: with [LIMIT_OF_ATTEMPTS_TO_RETRY] unset, a URL
    whose every reply has a status outside the error list and a body that
    [response.json()] rejects with [ContentTypeError] is fetched five times,
    adds five to the failure counter and ends with [None]. *)
Theorem fetch_content_type_error_is_retried environ u reply failed fuel :
  environ !! "LIMIT_OF_ATTEMPTS_TO_RETRY" = None ->
  (forall n, (n < 5)%nat ->
     exists status, reply n = Response status (JsonRaises ContentTypeError) /\
                    status ∉ [400; 403; 404; 500]) ->
  (5 <= fuel)%nat ->
  issubclass ContentTypeError ClientResponseError = true
  /\ except_matches ContentTypeError retryable_errors = true
  /\ _fetch fuel (load_Config environ) u reply failed = Some (Returned None, 5%nat, failed + 5)
  /\ (forall attempts_left e,
        on_exception (load_Config environ) attempts_left e = Finish (Returned None)
        <-> issubclass e UnicodeDecodeError = true \/ issubclass e InvalidURL = true).
Proof.
  intros Hunset Hreply Hfuel.
  split; [reflexivity|]. split; [reflexivity|].
  split; [|intros; apply on_exception_none_iff].
  apply fetch_default_exhausts; [done| |done].
  intros n Hn. destruct (Hreply n Hn) as (status & -> & Hstatus).
  exists ContentTypeError. split; [|reflexivity].
  simpl. set_unfold.
  destruct (status =? 400) eqn:H400; [apply Z.eqb_eq in H400; tauto|].
  destruct (status =? 403) eqn:H403; [apply Z.eqb_eq in H403; tauto|].
  destruct (status =? 404) eqn:H404; [apply Z.eqb_eq in H404; tauto|].
  destruct (status =? 500) eqn:H500; [apply Z.eqb_eq in H500; tauto|].
  reflexivity.
Qed.

Lemma fetch_content_type_error_is_retried_witness :
  _fetch 5 (load_Config ∅) {| str := "https://example.com/wp-json/wp/v2/users" |}
    (fun _ => Response 200 (JsonRaises ContentTypeError)) 0
  = Some (Returned None, 5%nat, 5).
Proof.
  refine (proj1 (proj2 (proj2
    (fetch_content_type_error_is_retried ∅ _ _ 0 5 _ _ _)))); [reflexivity| |lia].
  intros n _. exists 200. split; [reflexivity|]. set_unfold. lia.
Defined.

(** C10, as stated, fails when [LIMIT_OF_ATTEMPTS_TO_RETRY] is set: the budget
    is then a [str], and the first [ContentTypeError] makes the retry handler
    raise [TypeError]; [_fetch] ends with it after one GET, the counter
    unchanged, instead of retrying until [None]. *)
Lemma content_type_error_with_env_budget :
  _fetch 5 (load_Config {[ "LIMIT_OF_ATTEMPTS_TO_RETRY" := "3" ]}) users_endpoint
    (fun _ => Response 200 (JsonRaises ContentTypeError)) 0
  = Some (Raised TypeError, 1%nat, 0).
Proof. vm_compute. reflexivity. Qed.

(** ** The workers under the event loop *)

Section EventLoop.

Variable cfg : Config.
Variable net : nat -> nat -> attempt.

Lemma sum_list_insert (f : task -> nat) (ts : list task) (i : nat) (t t' : task) :
  ts !! i = Some t ->
  (sum_list (f <$> <[i := t']> ts) + f t = sum_list (f <$> ts) + f t')%nat.
Proof.
  revert i. induction ts as [|t0 ts IH]; intros [|i] Hi; simplify_eq/=; [lia|].
  specialize (IH i Hi). lia.
Qed.

Lemma total_insert (ks : list Z) (i : nat) (k k' : Z) :
  ks !! i = Some k -> total (<[i := k']> ks) = total ks - k + k'.
Proof.
  revert i. induction ks as [|k0 ks IH]; intros [|i] Hi; simplify_eq/=; [lia|].
  rewrite (IH i Hi). lia.
Qed.

Lemma at_iteration_fetch u reply attempts_left gets k :
  at_iteration cfg u reply attempts_left gets k ->
  forall fuel failed r,
    retry_loop fuel cfg u reply attempts_left gets (failed + k) = Some r ->
    exists fuel', _fetch fuel' cfg u reply failed = Some r.
Proof.
  induction 1 as [|attempts_left gets k attempts_left' _ IH Htruthy Htry];
    intros fuel failed r Hloop.
  - exists fuel. unfold _fetch. by rewrite Z.add_0_r in Hloop.
  - apply (IH (S fuel)). cbn [retry_loop]. rewrite Htruthy, Htry.
    by rewrite <- Z.add_assoc.
Qed.

(** Replacing a task by one that follows its loop, and accounts for its slot
    and for what it added to the counter, keeps the manager consistent. *)
Lemma consistent_update m i t u t' value failed raised :
  consistent cfg net m ->
  tasks m !! i = Some t ->
  _urls m !! i = Some u ->
  (forall k, task_follows_loop cfg u (net i) t k ->
     exists k', task_follows_loop cfg u (net i) t' k'
                /\ failed = _failed_requests_num m - k + k') ->
  (in_flight_task t' + value = in_flight_task t + _semaphore m)%nat ->
  consistent cfg net
    {| _urls := _urls m; _semaphore := value; _failed_requests_num := failed;
       tasks := <[i := t']> (tasks m); gather_raised := raised |}.
Proof.
  intros (Hlen & Hslots & added & Hadded & Hfailed & Htasks) Ht Hu Hfollows Hvalue.
  destruct (lookup_lt_is_Some_2 added i) as [k Hk].
  { rewrite Hadded. by eapply lookup_lt_Some. }
  destruct (Hfollows k (Htasks _ _ _ _ Ht Hu Hk)) as (k' & Hfollows' & ->).
  split; [|split]; simpl.
  - by rewrite length_insert.
  - unfold in_flight in *. simpl.
    pose proof (sum_list_insert in_flight_task _ _ _ t' Ht). lia.
  - exists (<[i := k']> added). split; [by rewrite !length_insert|].
    split; [rewrite (total_insert _ _ _ _ Hk); lia|].
    intros j tj uj kj Hj Huj Hkj. destruct (decide (i = j)) as [<-|Hne].
    + rewrite list_lookup_insert_eq in Hj by (by eapply lookup_lt_Some).
      rewrite list_lookup_insert_eq in Hkj by (by eapply lookup_lt_Some).
      by simplify_eq.
    + rewrite list_lookup_insert_ne in Hj by done.
      rewrite list_lookup_insert_ne in Hkj by done. by eapply Htasks.
Qed.

(** Under the invariant a worker that holds a slot can always give it back:
    [release] does not raise. *)
Lemma leave_eq m i o gets :
  (_semaphore m < SIMULTANEOUS_CONCURRENT_TASKS cfg)%nat ->
  leave cfg i o gets m =
    {| _urls := _urls m; _semaphore := S (_semaphore m);
       _failed_requests_num := _failed_requests_num m;
       tasks := <[i := Done o gets]> (tasks m);
       gather_raised := match gather_raised m, o with
                        | None, Raised e => Some e
                        | first, _ => first
                        end |}.
Proof.
  intros Hfree. unfold leave, release.
  by replace (SIMULTANEOUS_CONCURRENT_TASKS cfg <=? _semaphore m)%nat with false
    by (symmetry; apply Nat.leb_gt, Hfree).
Qed.

Lemma in_flight_lookup m i attempts_left gets :
  tasks m !! i = Some (Awaiting attempts_left gets) -> (1 <= in_flight m)%nat.
Proof.
  intros Hi. unfold in_flight.
  pose proof (sum_list_insert in_flight_task _ _ _ Waiting Hi). simpl in *. lia.
Qed.

Lemma resume_consistent i m :
  consistent cfg net m -> consistent cfg net (resume cfg net i m).
Proof.
  intros Hm. pose proof Hm as (Hlen & Hslots & _). unfold resume.
  destruct (tasks m !! i) as [[|attempts_left gets|o gets]|] eqn:Ht; [| |done..];
    (destruct (_urls m !! i) as [u|] eqn:Hu; [|done]).
  - (* the worker gets its slot *)
    destruct (_semaphore m) as [|free] eqn:Hsem; [done|].
    unfold loop_test, acquired.
    destruct (truthy (LIMIT_OF_ATTEMPTS_TO_RETRY cfg)) eqn:Htruthy; simpl.
    + apply (consistent_update m i Waiting u); [done..| |simpl; lia].
      intros k ->. exists 0. split; [|lia]. split; [done|constructor].
    + rewrite leave_eq by (simpl; lia). simpl.
      apply (consistent_update m i Waiting u); [done..| |simpl; lia].
      intros k ->. exists 0. split; [|lia].
      exists 0%nat. unfold _fetch. simpl. by rewrite Htruthy.
  - (* the reply to its GET arrives *)
    pose proof (in_flight_lookup _ _ _ _ Ht) as Hheld.
    destruct (try_once cfg u attempts_left (net i gets)) as [attempts_left'|o] eqn:Htry.
    + unfold loop_test, set_failed_requests_num.
      destruct (truthy attempts_left') eqn:Htruthy'; simpl.
      * apply (consistent_update m i (Awaiting attempts_left gets) u);
          [done..| |simpl; lia].
        intros k (Htruthy & Hat). exists (k + REQUESTS_RETRIES_NUM_TO_REMOVE cfg).
        split; [|lia]. split; [done|]. by eapply at_next.
      * rewrite leave_eq by (simpl; lia). simpl.
        apply (consistent_update m i (Awaiting attempts_left gets) u);
          [done..| |simpl; lia].
        intros k (Htruthy & Hat). exists (0 + k + REQUESTS_RETRIES_NUM_TO_REMOVE cfg).
        split; [|lia]. simpl.
        apply (at_iteration_fetch u (net i) attempts_left gets k Hat 2 0).
        cbn [retry_loop]. by rewrite Htruthy, Htry, Htruthy'.
    + rewrite leave_eq by lia.
      apply (consistent_update m i (Awaiting attempts_left gets) u);
        [done..| |simpl; lia].
      intros k (Htruthy & Hat). exists (0 + k). split; [|lia]. simpl.
      apply (at_iteration_fetch u (net i) attempts_left gets k Hat 1 0).
      cbn [retry_loop]. by rewrite Htruthy, Htry.
Qed.

Lemma run_consistent choices m :
  consistent cfg net m -> consistent cfg net (run cfg net choices m).
Proof.
  revert m. induction choices as [|c choices IH]; intros m Hm; simpl; [done|].
  destruct (gather_raised m); [done|].
  destruct (ready m) as [|i0 rest]; [done|].
  by apply IH, resume_consistent.
Qed.

Lemma new_RequestManager_consistent urls :
  consistent cfg net (new_RequestManager cfg urls).
Proof.
  split; [|split]; simpl.
  - by rewrite length_fmap.
  - unfold in_flight. simpl.
    assert (Hnone : sum_list (in_flight_task <$> ((fun _ => Waiting) <$> urls)) = 0%nat)
      by (induction urls as [|? ? IH]; [done|exact IH]).
    by rewrite Hnone.
  - exists ((fun _ => 0) <$> urls). split; [by rewrite !length_fmap|]. split.
    + induction urls as [|? ? IH]; [done|]. csimpl. by rewrite <- IH.
    + intros i t u k Hi _ Hk. rewrite list_lookup_fmap in Hi.
      rewrite list_lookup_fmap in Hk. destruct (urls !! i); simplify_eq/=. done.
Qed.

End EventLoop.

(** The result of the loop of a worker does not depend on the fuel that was
    enough for it. *)
Lemma retry_loop_more_fuel cfg u reply fuel fuel' attempts_left gets failed r :
  retry_loop fuel cfg u reply attempts_left gets failed = Some r ->
  (fuel <= fuel')%nat ->
  retry_loop fuel' cfg u reply attempts_left gets failed = Some r.
Proof.
  revert fuel' attempts_left gets failed.
  induction fuel as [|fuel IH]; intros fuel' attempts_left gets failed Hloop Hle.
  - simpl in Hloop. destruct (truthy attempts_left) eqn:Htruthy; [done|].
    destruct fuel'; simpl; by rewrite Htruthy.
  - destruct fuel' as [|fuel']; [lia|]. cbn [retry_loop] in *.
    destruct (truthy attempts_left); [|done].
    destruct (try_once cfg u attempts_left (reply gets)); [|done].
    apply IH; [done|lia].
Qed.

Lemma fetch_deterministic cfg u reply fuel fuel' failed r r' :
  _fetch fuel cfg u reply failed = Some r ->
  _fetch fuel' cfg u reply failed = Some r' ->
  r = r'.
Proof.
  unfold _fetch. intros Hr Hr'.
  apply (retry_loop_more_fuel _ _ _ _ (fuel `max` fuel')%nat) in Hr; [|lia].
  apply (retry_loop_more_fuel _ _ _ _ (fuel `max` fuel')%nat) in Hr'; [|lia].
  congruence.
Qed.

(** The network is asked only on behalf of a worker that holds a slot. *)
Lemma resume_asks_network_in_flight cfg net net' i m :
  (forall attempts_left gets, tasks m !! i <> Some (Awaiting attempts_left gets)) ->
  resume cfg net i m = resume cfg net' i m.
Proof.
  intros Hidle. unfold resume.
  destruct (tasks m !! i) as [[|attempts_left gets|o gets]|] eqn:Ht; try done.
  by destruct (Hidle attempts_left gets).
Qed.

(** C5: whatever the replies and whatever the order in which the event loop
    resumes the workers, at every moment of [make_requests] the workers with a
    GET in flight and the free slots of the semaphore add up to
    [Config.SIMULTANEOUS_CONCURRENT_TASKS] (51 as loaded): at most that many
    GETs are in flight, a worker that is no longer in flight, however it
    ended, has given its slot back, and resuming a worker that is not in
    flight does not involve the network. *)
Theorem in_flight_never_exceeds_bound cfg net urls choices :
  let m := run cfg net choices (new_RequestManager cfg urls) in
  (in_flight m + _semaphore m = SIMULTANEOUS_CONCURRENT_TASKS cfg)%nat
  /\ (in_flight m <= SIMULTANEOUS_CONCURRENT_TASKS cfg)%nat
  /\ (forall i net',
        (forall attempts_left gets, tasks m !! i <> Some (Awaiting attempts_left gets)) ->
        resume cfg net i m = resume cfg net' i m)
  /\ (forall environ, SIMULTANEOUS_CONCURRENT_TASKS (load_Config environ) = 51%nat).
Proof.
  intros m.
  destruct (run_consistent cfg net choices _ (new_RequestManager_consistent cfg net urls))
    as (_ & Hslots & _).
  fold m in Hslots. split; [done|]. split; [lia|]. split; [|done].
  intros i net'. apply resume_asks_network_in_flight.
Qed.

Lemma filter_truthy_omap (results : list fetched) :
  filter (fun r => Is_true (result_truthy r)) results = Some <$> omap id results.
Proof.
  induction results as [|[r|] results IH]; [done| |].
  - rewrite filter_cons_True by done. simpl. by rewrite IH.
  - rewrite filter_cons_False by (simpl; tauto). done.
Qed.

Lemma gather_returned cfg net m results :
  consistent cfg net m ->
  gather m = Some (Returned results) ->
  length results = length (_urls m)
  /\ exists added : list Z,
       _failed_requests_num m = total added
       /\ length added = length (_urls m)
       /\ forall i u, _urls m !! i = Some u ->
            exists r fuel gets k,
              results !! i = Some r /\ added !! i = Some k /\
              _fetch fuel cfg u (net i) 0 = Some (Returned r, gets, k).
Proof.
  intros (Hlen & _ & added & Hadded & Hfailed & Htasks) Hgather. unfold gather in Hgather.
  destruct (gather_raised m); [done|].
  destruct (mapM task_result (tasks m)) as [results'|] eqn:HmapM; simplify_eq/=.
  apply mapM_Some in HmapM.
  pose proof (Forall2_length _ _ _ HmapM) as Hlen'.
  split; [lia|]. exists added. split; [done|]. split; [lia|]. intros i u Hu.
  destruct (lookup_lt_is_Some_2 (tasks m) i) as [t Ht].
  { rewrite Hlen. by eapply lookup_lt_Some. }
  destruct (lookup_lt_is_Some_2 added i) as [k Hk].
  { rewrite Hadded. by eapply lookup_lt_Some. }
  destruct (Forall2_lookup_l _ _ _ _ _ HmapM Ht) as (r & Hr & Hresult).
  destruct t as [| |[v|e] gets]; simplify_eq/=.
  destruct (Htasks _ _ _ _ Ht Hu Hk) as [fuel Hfetch]. eauto 10.
Qed.

Lemma leave_urls cfg i o gets m : _urls (leave cfg i o gets m) = _urls m.
Proof. unfold leave. by destruct (release _ _). Qed.

Lemma loop_test_urls cfg i attempts_left gets m :
  _urls (loop_test cfg i attempts_left gets m) = _urls m.
Proof. unfold loop_test. destruct (truthy _); [done|apply leave_urls]. Qed.

Lemma resume_urls cfg net i m : _urls (resume cfg net i m) = _urls m.
Proof.
  unfold resume.
  destruct (tasks m !! i) as [[|attempts_left gets|o gets]|]; try done;
    (destruct (_urls m !! i); [|done]).
  - destruct (_semaphore m); [done|]. by rewrite loop_test_urls.
  - destruct (try_once _ _ _ _); [by rewrite loop_test_urls|apply leave_urls].
Qed.

Lemma run_urls cfg net choices m : _urls (run cfg net choices m) = _urls m.
Proof.
  revert m. induction choices as [|c choices IH]; intros m; simpl; [done|].
  destruct (gather_raised m); [done|].
  destruct (ready m); [done|]. by rewrite IH, resume_urls.
Qed.

Lemma create_make_requests_objects yarl cfg urls objects net choices :
  mapM yarl urls = Some objects ->
  create_make_requests yarl cfg urls net choices
  = gather (run cfg net choices (new_RequestManager cfg objects))
  /\ length objects = length urls.
Proof.
  intros Hobjects. unfold create_make_requests, RequestManager_init, make_requests.
  rewrite Hobjects. split; [done|].
  apply mapM_Some in Hobjects. symmetry. by eapply Forall2_length.
Qed.

Lemma create_make_requests_returned yarl cfg urls net choices results :
  create_make_requests yarl cfg urls net choices = Some (Returned results) ->
  exists objects, mapM yarl urls = Some objects.
Proof.
  unfold create_make_requests, RequestManager_init.
  destruct (mapM yarl urls) as [objects|]; [eauto|done].
Qed.

(** When [make_requests] returns, [failed_requests_num] is the sum over the
    URLs of what [_fetch], run on its own from 0, adds for each. *)
Lemma failed_requests_num_is_sum yarl cfg net urls objects choices results :
  mapM yarl urls = Some objects ->
  create_make_requests yarl cfg urls net choices = Some (Returned results) ->
  exists added : list Z,
    _failed_requests_num (run cfg net choices (new_RequestManager cfg objects)) = total added
    /\ length added = length urls
    /\ forall i u, objects !! i = Some u ->
         exists r fuel gets k,
           added !! i = Some k /\
           _fetch fuel cfg u (net i) 0 = Some (Returned r, gets, k).
Proof.
  intros Hobjects Hscan.
  destruct (create_make_requests_objects yarl cfg urls objects net choices Hobjects)
    as (Heq & Hlen).
  rewrite Heq in Hscan.
  pose proof (run_consistent cfg net choices _
                (new_RequestManager_consistent cfg net objects)) as Hm.
  destruct (gather_returned _ _ _ _ Hm Hscan) as (_ & added & Hfailed & Hadded & Hresults).
  rewrite run_urls in Hadded, Hresults. simpl in Hadded, Hresults.
  exists added. split; [done|]. split; [lia|]. intros i u Hu.
  destruct (Hresults i u Hu) as (r & fuel & gets & k & _ & Hk & Hfetch). eauto 10.
Qed.

(** ** Completion of the scan *)

Lemma positions_elem (p : task -> bool) (ts : list task) (k i : nat) :
  i ∈ positions p k ts ->
  (k <= i)%nat /\ exists t, ts !! (i - k)%nat = Some t /\ p t = true.
Proof.
  revert k. induction ts as [|t ts IH]; intros k Hi; simpl in Hi.
  - by apply elem_of_nil in Hi.
  - assert (Htail : i ∈ positions p (S k) ts ->
                    (k <= i)%nat /\ exists t', (t :: ts) !! (i - k)%nat = Some t' /\ p t' = true).
    { intros Hin. destruct (IH _ Hin) as (Hle & t' & Ht' & Hp). split; [lia|].
      exists t'. split; [|done].
      replace (i - k)%nat with (S (i - S k)) by lia. done. }
    destruct (p t) eqn:Hpt; [|by apply Htail].
    apply elem_of_cons in Hi as [->|Hin]; [|by apply Htail].
    split; [lia|]. exists t. by rewrite Nat.sub_diag.
Qed.

Lemma positions_nil (p : task -> bool) (ts : list task) (k : nat) :
  positions p k ts = [] -> forall i t, ts !! i = Some t -> p t = false.
Proof.
  revert k. induction ts as [|t ts IH]; intros k Hnil i t' Hi; [done|].
  simpl in Hnil. destruct (p t) eqn:Hpt; [done|].
  destruct i as [|i]; simplify_eq/=; [done|]. by eapply IH.
Qed.

(** The worker picked by a choice is one that can run. *)
Lemma chosen_runnable (m : RequestManager) (c i0 : nat) (rest : list nat) :
  ready m = i0 :: rest ->
  exists t, tasks m !! nth (c mod length (i0 :: rest)) (i0 :: rest) i0 = Some t
            /\ runnable m t = true.
Proof.
  intros Hready.
  assert (Hchosen : nth (c mod length (i0 :: rest)) (i0 :: rest) i0 ∈ ready m).
  { rewrite Hready. apply list_elem_of_In, nth_In, Nat.mod_upper_bound. simpl. lia. }
  apply positions_elem in Hchosen as (_ & t & Ht & Hrun).
  rewrite Nat.sub_0_r in Ht. eauto.
Qed.

Section Completion.

Variable cfg : Config.
Variable net : nat -> nat -> attempt.

(** What [resume] does to the manager, for a worker that can run. *)
Lemma resume_next_task m i t u :
  consistent cfg net m ->
  tasks m !! i = Some t ->
  _urls m !! i = Some u ->
  runnable m t = true ->
  tasks (resume cfg net i m) = <[i := next_task cfg u (net i) t]> (tasks m)
  /\ gather_raised (resume cfg net i m)
     = first_raised (gather_raised m) (next_task cfg u (net i) t).
Proof.
  intros (Hlen & Hslots & Htasks) Ht Hu Hrun. unfold resume. rewrite Ht, Hu.
  destruct t as [|attempts_left gets|o gets]; simpl in Hrun; [| |done].
  - destruct (_semaphore m) as [|free] eqn:Hsem; [done|].
    unfold loop_test, next_task.
    destruct (truthy (LIMIT_OF_ATTEMPTS_TO_RETRY cfg)); simpl.
    + by destruct (gather_raised m).
    + rewrite leave_eq by (simpl; lia). simpl. by destruct (gather_raised m).
  - pose proof (in_flight_lookup _ _ _ _ Ht) as Hheld.
    unfold next_task.
    destruct (try_once cfg u attempts_left (net i gets)) as [attempts_left'|o].
    + unfold loop_test. destruct (truthy attempts_left'); simpl.
      * by destruct (gather_raised m).
      * rewrite leave_eq by (simpl; lia). simpl. by destruct (gather_raised m).
    + rewrite leave_eq by lia. simpl. by destruct (gather_raised m) , o.
Qed.

Lemma new_RequestManager_well_run urls :
  well_run cfg net (new_RequestManager cfg urls)
  /\ work_left (new_RequestManager cfg urls) = (6 * length urls)%nat.
Proof.
  split; [split; [apply new_RequestManager_consistent|split; [done|]]|].
  - intros i t Hi. simpl in Hi. rewrite list_lookup_fmap in Hi.
    destruct (urls !! i); simpl in Hi; [|done]. by injection Hi as <-.
  - unfold work_left. simpl. induction urls as [|u urls IH]; [done|].
    csimpl. rewrite IH. simpl. lia.
Qed.

Hypothesis default_limit : LIMIT_OF_ATTEMPTS_TO_RETRY cfg = PyInt 5.
Hypothesis default_step : REQUESTS_RETRIES_NUM_TO_REMOVE cfg = 1.
Hypothesis some_slot : (1 <= SIMULTANEOUS_CONCURRENT_TASKS cfg)%nat.
Hypothesis handled : handled_network cfg net.

(** With an integer budget and handled exceptions an iteration either goes
    round once more with one attempt less, or ends the loop by returning. *)
Lemma try_once_handled u i n (z : Z) :
  try_once cfg u (PyInt z) (net i n) = Continue (PyInt (z - 1))
  \/ exists v, try_once cfg u (PyInt z) (net i n) = Finish (Returned v).
Proof.
  destruct (raised_in_try cfg (net i n)) as [e|] eqn:Hraised.
  - rewrite (try_once_raised _ _ _ _ _ Hraised).
    pose proof (handled _ _ _ Hraised) as Hcaught.
    unfold except_matches in Hcaught. rewrite existsb_app in Hcaught.
    destruct (except_matches e retryable_errors) eqn:Hretry.
    + left. by rewrite (on_exception_retry _ _ _ _ default_limit Hretry), default_step.
    + right. exists None. apply on_exception_url_fatal; [done|].
      unfold except_matches in Hretry. by rewrite Hretry in Hcaught.
  - right. unfold try_once. destruct (net i n) as [e|status [v|e]]; simpl in *; [done| |].
    + destruct (negb _); eauto.
    + destruct (negb _); [done|eauto].
Qed.

Lemma next_task_within_budget u i t :
  within_budget t ->
  within_budget (next_task cfg u (net i) t)
  /\ first_raised None (next_task cfg u (net i) t) = None
  /\ match t with
     | Done _ _ => True
     | _ => (resumptions_left (next_task cfg u (net i) t) < resumptions_left t)%nat
     end.
Proof.
  destruct t as [|attempts_left gets|o gets]; simpl.
  - intros _. rewrite default_limit. simpl. split; [|split; [done|lia]].
    exists 5. split; [done|lia].
  - intros (z & -> & Hz).
    destruct (try_once_handled u i gets z) as [->|[v ->]]; simpl.
    + destruct (z - 1 =? 0) eqn:Hzero; simpl.
      * split; [eauto|]. split; [done|lia].
      * apply Z.eqb_neq in Hzero. split; [|split; [done|lia]].
        exists (z - 1). split; [done|lia].
    + split; [eauto|]. split; [done|lia].
  - intros [v ->]. split; [eauto|]. done.
Qed.

Lemma resume_well_run m i t :
  well_run cfg net m ->
  tasks m !! i = Some t ->
  runnable m t = true ->
  well_run cfg net (resume cfg net i m)
  /\ (work_left (resume cfg net i m) < work_left m)%nat.
Proof.
  intros (Hm & Hnone & Hbudget) Ht Hrun.
  destruct (lookup_lt_is_Some_2 (_urls m) i) as [u Hu].
  { destruct Hm as (<- & _). by eapply lookup_lt_Some. }
  destruct (resume_next_task m i t u Hm Ht Hu Hrun) as (Htasks & Hraised).
  destruct (next_task_within_budget u i t (Hbudget _ _ Ht)) as (Hnext & Hfirst & Hless).
  split; [split; [by apply resume_consistent|split]|].
  - by rewrite Hraised, Hnone.
  - intros j tj. rewrite Htasks. destruct (decide (i = j)) as [<-|Hne].
    + rewrite list_lookup_insert_eq by (by eapply lookup_lt_Some). by intros [= <-].
    + rewrite list_lookup_insert_ne by done. apply Hbudget.
  - unfold work_left. rewrite Htasks.
    pose proof (sum_list_insert resumptions_left _ _ _ (next_task cfg u (net i) t) Ht).
    assert (resumptions_left (next_task cfg u (net i) t) < resumptions_left t)%nat; [|lia].
    by destruct t as [| |o gets].
Qed.

(** No deadlock: when no worker can run, every worker has returned. *)
Lemma nothing_ready_all_returned m :
  well_run cfg net m ->
  ready m = [] ->
  forall i t, tasks m !! i = Some t -> exists v gets, t = Done (Returned v) gets.
Proof.
  intros ((Hlen & Hslots & _) & _ & Hbudget) Hready.
  pose proof (positions_nil _ _ _ Hready) as Hidle.
  assert (Hnone : in_flight m = 0%nat).
  { unfold in_flight. clear -Hidle. induction (tasks m) as [|t ts IH]; [done|]. csimpl.
    rewrite IH by (intros i t' Hi; by apply (Hidle (S i))).
    pose proof (Hidle 0%nat t eq_refl). by destruct t. }
  intros i t Ht. pose proof (Hidle _ _ Ht) as Hrun. pose proof (Hbudget _ _ Ht) as Ht'.
  destruct t as [| |o gets]; simpl in *; [|done|].
  - apply Nat.ltb_ge in Hrun. lia.
  - destruct Ht' as [v ->]. eauto.
Qed.

Lemma no_work_all_returned m :
  well_run cfg net m ->
  work_left m = 0%nat ->
  forall i t, tasks m !! i = Some t -> exists v gets, t = Done (Returned v) gets.
Proof.
  intros (_ & _ & Hbudget) Hwork i t Ht.
  pose proof (sum_list_insert resumptions_left _ _ _ (Done (Returned None) 0) Ht) as Hsum.
  fold (work_left m) in Hsum. pose proof (Hbudget _ _ Ht) as Ht'.
  destruct t as [|attempts_left gets|o gets]; simpl in *; [lia| |].
  - destruct Ht' as (z & -> & Hz). simpl in Hsum. lia.
  - destruct Ht' as [v ->]. eauto.
Qed.

Lemma run_completes choices m :
  well_run cfg net m ->
  (work_left m <= length choices)%nat ->
  well_run cfg net (run cfg net choices m)
  /\ forall i t, tasks (run cfg net choices m) !! i = Some t ->
       exists v gets, t = Done (Returned v) gets.
Proof using default_limit default_step some_slot handled.
  revert m. induction choices as [|c choices IH]; intros m Hm Hwork;
    cbn [run]; simpl in Hwork.
  - split; [done|]. apply no_work_all_returned; [done|lia].
  - pose proof Hm as (_ & -> & _).
    destruct (ready m) as [|i0 rest] eqn:Hready.
    { split; [done|]. by apply nothing_ready_all_returned. }
    destruct (chosen_runnable m c i0 rest Hready) as (t & Ht & Hrun).
    destruct (resume_well_run m _ t Hm Ht Hrun) as (Hm' & Hless).
    apply IH; [done|lia].
Qed.

Lemma run_never_raises choices m :
  well_run cfg net m -> well_run cfg net (run cfg net choices m).
Proof using default_limit default_step some_slot handled.
  revert m. induction choices as [|c choices IH]; intros m Hm; cbn [run]; [done|].
  pose proof Hm as (_ & -> & _).
  destruct (ready m) as [|i0 rest] eqn:Hready; [done|].
  destruct (chosen_runnable m c i0 rest Hready) as (t & Ht & Hrun).
  by apply IH, (resume_well_run m _ t).
Qed.

End Completion.


(** With the default retry budget, when every exception met while probing is
    an instance of a class named in one of the two [except] clauses of
    [_fetch], [make_requests] never raises, and it returns one outcome per URL
    as soon as the event loop has been given enough turns (six per URL),
    whatever the order in which it resumes the workers; [main] can then end
    with an exception only from its setup (arguments, logger, scheme probe),
    from yarl refusing a candidate, or from writing the results. *)
Theorem scan_completes_when_errors_are_handled yarl json_dumps w :
  environ w !! "LIMIT_OF_ATTEMPTS_TO_RETRY" = None ->
  handled_network (load_Config (environ w)) (network w) ->
  (forall objects choices e,
     fst (make_requests (load_Config (environ w)) (network w) choices
            (new_RequestManager (load_Config (environ w)) objects))
     <> Some (Raised e))
  /\ (forall objects choices, (6 * length objects <= length choices)%nat ->
        exists results,
          fst (make_requests (load_Config (environ w)) (network w) choices
                 (new_RequestManager (load_Config (environ w)) objects))
          = Some (Returned results)
          /\ length results = length objects)
  /\ (forall e d, main yarl json_dumps w = Some (Raised e, d) ->
        raised_by_setup w e
        \/ (e = ValueError /\ exists urls, mapM yarl urls = None)
        \/ exists results,
             write_results_to_file json_dumps (load_Config (environ w)) results (disk w)
             = (Raised e, d)).
Proof.
  intros Hunset Hnet. set (cfg := load_Config (environ w)).
  assert (Hlimit : LIMIT_OF_ATTEMPTS_TO_RETRY cfg = PyInt 5)
    by (by apply load_Config_default_limit).
  assert (Hslot : (1 <= SIMULTANEOUS_CONCURRENT_TASKS cfg)%nat) by (simpl; lia).
  assert (Hnever : forall objects choices e,
            fst (make_requests cfg (network w) choices (new_RequestManager cfg objects))
            <> Some (Raised e)).
  { intros objects choices e.
    destruct (new_RequestManager_well_run cfg (network w) objects) as (Hnew & _).
    destruct (run_never_raises cfg (network w) Hlimit eq_refl Hslot Hnet choices _ Hnew)
      as (_ & Hnone & _).
    unfold make_requests, gather. simpl.
    rewrite Hnone. by destruct (mapM _ _). }
  split; [done|]. split.
  - intros objects choices Hlong.
    destruct (new_RequestManager_well_run cfg (network w) objects) as (Hnew & Hwork).
    destruct (run_completes cfg (network w) Hlimit eq_refl Hslot Hnet choices _ Hnew)
      as ((Hm & Hnone & _) & Hdone); [lia|].
    assert (Hsome : is_Some (mapM task_result
                      (tasks (run cfg (network w) choices (new_RequestManager cfg objects))))).
    { apply mapM_is_Some, Forall_lookup. intros i t Ht.
      destruct (Hdone i t Ht) as (v & gets & ->). by eexists. }
    destruct Hsome as [results Hresults]. exists results.
    assert (Hgather : gather (run cfg (network w) choices (new_RequestManager cfg objects))
                      = Some (Returned results)).
    { unfold gather. by rewrite Hnone, Hresults. }
    split; [by unfold make_requests|].
    destruct (gather_returned _ _ _ _ Hm Hgather) as (Hlen & _).
    by rewrite run_urls in Hlen.
  - intros e d. unfold main, raised_by_setup. fold cfg.
    destruct (cli cfg (argv w)) as [args|e']; [|intros [= -> ->]; by left].
    unfold define_config_from_cmd. simpl.
    destruct (logger_initialisation _ _) as [[]|e']; [|intros [= -> ->]; by left].
    destruct (probe_target_schema _ _) as [schema|e']; [|intros [= -> ->]; by left].
    unfold create_make_requests, RequestManager_init.
    destruct (mapM yarl _) as [objects|] eqn:Hobjects; simpl.
    + destruct (gather (run cfg (network w) (choices w) (new_RequestManager cfg objects)))
        as [[results|e']|] eqn:Hscan; [| |done].
      * intros [= Hwrite]. right. right. eauto.
      * by destruct (Hnever objects (choices w) e').
    + intros [= <- <-]. right. left. eauto.
Qed.

Lemma scan_completes_when_errors_are_handled_witness :
  exists results,
    fst (make_requests (load_Config ∅) sample_network (seq 0 18)
           (new_RequestManager (load_Config ∅) sample_objects))
    = Some (Returned results)
    /\ length results = length sample_objects.
Proof.
  refine (proj1 (proj2 (scan_completes_when_errors_are_handled plain_yarl (fun _ => "[]")
                          sample_world _ _)) sample_objects (seq 0 18) _).
  - reflexivity.
  - intros i n e. destruct i as [|[|i]]; simpl; intros [= <-]; reflexivity.
  - simpl. lia.
Defined.

(** ** The sink and the end of the process *)

Section SinkFacts.

Variable yarl : string -> option URL.
Variable json_dumps : list fetched -> string.

(** Whatever the command line says, [main] touches no file other than
    [Config.RESULT_FILE_NAME]. *)
Lemma main_writes_result_file_only w o d path :
  main yarl json_dumps w = Some (o, d) ->
  path <> RESULT_FILE_NAME (load_Config (environ w)) ->
  files d !! path = files (disk w) !! path.
Proof.
  unfold main. intros Hmain Hpath.
  destruct (cli _ _); [|by simplify_eq].
  destruct (logger_initialisation _ _); [|by simplify_eq].
  destruct (probe_target_schema _ _); [|by simplify_eq].
  destruct (create_make_requests _ _ _ _) as [[results|e]|]; [|by simplify_eq|done].
  unfold write_results_to_file, open_and_write in Hmain.
  destruct (decide _); simplify_eq/=; [done|].
  by rewrite lookup_insert_ne.
Qed.

(** C6, what the code does instead: run as
    [logins_finder.py -d example.com -o out.json] against a site whose plain
    users endpoint answers, the script ends normally having written the
    one-record result to [results.json], the value of
    [Config.RESULT_FILE_NAME]; no [out.json] exists afterwards. *)
Theorem output_option_is_ignored :
  exists e,
    script plain_yarl json_dumps scenario_world = Some e
    /\ exit_status e = 0
    /\ files (disk_after e) !! "out.json" = None
    /\ files (disk_after e) !! "results.json"
       = Some (json_dumps [Some {| url := "https://example.com/wp-json/wp/v2/users";
                                   status_code := 200;
                                   body := admin_body |}]).
Proof.
  eexists. split; [vm_compute; reflexivity|].
  split; [reflexivity|]. split; vm_compute; reflexivity.
Qed.

(** C7, as amended: an exception that derives from [Exception] and leaves
    [main] is passed to [logging.exception] by the [__main__] block; the
    script then runs to its end and the process exits with status 0. *)
Theorem escaped_exception_logged_exit_zero w e d :
  main yarl json_dumps w = Some (Raised e, d) ->
  issubclass e Exception = true ->
  script yarl json_dumps w
  = Some {| exit_status := 0; logged_exceptions := [e]; disk_after := d |}.
Proof.
  intros Hmain Hexception. unfold script. rewrite Hmain.
  unfold except_matches. simpl. by rewrite Hexception.
Qed.

End SinkFacts.

Lemma escaped_exception_logged_exit_zero_witness :
  script plain_yarl (fun _ => "[]") readonly_world
  = Some {| exit_status := 0; logged_exceptions := [PermissionError];
            disk_after := disk readonly_world |}.
Proof.
  apply (escaped_exception_logged_exit_zero plain_yarl (fun _ => "[]") readonly_world
           PermissionError (disk readonly_world)); vm_compute; reflexivity.
Defined.

(** C7, as stated, fails: when [results.json] cannot be opened for writing,
    [main] ends with [PermissionError]; the [__main__] block logs it and the
    exit status is 0. *)
Lemma write_failure_exits_zero :
  fst <$> main plain_yarl (fun _ => "[]") readonly_world = Some (Raised PermissionError)
  /\ exit_status <$> script plain_yarl (fun _ => "[]") readonly_world = Some 0
  /\ logged_exceptions <$> script plain_yarl (fun _ => "[]") readonly_world = Some [PermissionError].
Proof. repeat split; vm_compute; reflexivity. Qed.

(** ** Further properties of one worker *)

(** With an integer budget an iteration never fails inside the handler: it
    goes round with the counter decreased, or it ends the loop. *)
Lemma try_once_int_budget cfg u (limit z : Z) a :
  LIMIT_OF_ATTEMPTS_TO_RETRY cfg = PyInt limit ->
  try_once cfg u (PyInt z) a = Continue (PyInt (z - REQUESTS_RETRIES_NUM_TO_REMOVE cfg))
  \/ exists o, try_once cfg u (PyInt z) a = Finish o.
Proof.
  intros Hlimit.
  assert (Hexc : forall e,
            on_exception cfg (PyInt z) e
            = Continue (PyInt (z - REQUESTS_RETRIES_NUM_TO_REMOVE cfg))
            \/ exists o, on_exception cfg (PyInt z) e = Finish o).
  { intros e. unfold on_exception. rewrite Hlimit.
    destruct (except_matches e retryable_errors); [by left|].
    destruct (except_matches e url_fatal_errors); eauto. }
  destruct a as [e|status [v|e]]; simpl; [done| |].
  - destruct (negb _); eauto.
  - destruct (negb _); eauto.
Qed.

Lemma retry_loop_budget_bounds cfg u reply (limit : Z) (k : nat) :
  LIMIT_OF_ATTEMPTS_TO_RETRY cfg = PyInt limit ->
  REQUESTS_RETRIES_NUM_TO_REMOVE cfg = 1 ->
  forall (fuel gets : nat) (failed : Z),
    (k <= fuel)%nat ->
    exists o gets' failed',
      retry_loop fuel cfg u reply (PyInt (Z.of_nat k)) gets failed = Some (o, gets', failed')
      /\ (gets <= gets' <= gets + k)%nat
      /\ failed <= failed' <= failed + Z.of_nat k
      /\ failed' - failed <= Z.of_nat gets' - Z.of_nat gets.
Proof.
  intros Hlimit Hnum. induction k as [|k IH]; intros fuel gets failed Hfuel.
  - exists (Returned None), gets, failed.
    split; [by destruct fuel|]. split; [lia|]. split; lia.
  - destruct fuel as [|fuel]; [lia|]. cbn [retry_loop].
    replace (truthy (PyInt (Z.of_nat (S k)))) with true
      by (symmetry; unfold truthy; apply negb_true_iff, Z.eqb_neq; lia).
    destruct (try_once_int_budget cfg u limit (Z.of_nat (S k)) (reply gets) Hlimit)
      as [->|[o ->]].
    + rewrite Hnum. replace (Z.of_nat (S k) - 1) with (Z.of_nat k) by lia.
      destruct (IH fuel (S gets) (failed + 1)) as (o & gets' & failed' & -> & ? & ? & ?);
        [lia|].
      exists o, gets', failed'. split; [done|]. split; [lia|]. split; lia.
    + exists o, (S gets), failed. split; [done|]. split; [lia|]. split; lia.
Qed.

(** With the budget variable unset, whatever the network does a worker ends
    after at most five GETs, having added to the failure counter at most five
    and no more than the number of its GETs. *)
Theorem fetch_default_budget_bounds environ u reply failed fuel :
  environ !! "LIMIT_OF_ATTEMPTS_TO_RETRY" = None ->
  (5 <= fuel)%nat ->
  exists o gets failed',
    _fetch fuel (load_Config environ) u reply failed = Some (o, gets, failed')
    /\ (gets <= 5)%nat
    /\ failed <= failed' <= failed + 5
    /\ failed' - failed <= Z.of_nat gets.
Proof.
  intros Hunset Hfuel. unfold _fetch. rewrite (load_Config_default_limit _ Hunset).
  destruct (retry_loop_budget_bounds (load_Config environ) u reply 5 5
              (load_Config_default_limit _ Hunset) eq_refl fuel 0 failed Hfuel)
    as (o & gets & failed' & Hloop & ? & ? & ?).
  exists o, gets, failed'. split; [exact Hloop|]. split; [lia|]. split; lia.
Qed.

Lemma fetch_default_budget_bounds_witness :
  exists o gets failed',
    _fetch 5 (load_Config ∅) {| str := "https://example.com/wp-json/wp/v2/users" |}
      (fun n => if (n <? 2)%nat then GetRaises ClientOSError
                else Response 200 (JsonRaises JSONDecodeError)) 3
    = Some (o, gets, failed')
    /\ (gets <= 5)%nat
    /\ 3 <= failed' <= 3 + 5
    /\ failed' - 3 <= Z.of_nat gets.
Proof.
  apply (fetch_default_budget_bounds ∅ _ _ 3 5); [reflexivity|lia].
Defined.

Lemma retry_loop_recovers cfg u reply (limit : Z) status v (k : nat) :
  LIMIT_OF_ATTEMPTS_TO_RETRY cfg = PyInt limit ->
  REQUESTS_RETRIES_NUM_TO_REMOVE cfg = 1 ->
  existsb (Z.eqb status) (ERRORS_STATUS_CODES cfg) = false ->
  forall (z : Z) (fuel gets : nat) (failed : Z),
    Z.of_nat k < z ->
    (k < fuel)%nat ->
    (forall n, (gets <= n < gets + k)%nat ->
       exists e, raised_in_try cfg (reply n) = Some e /\
                 except_matches e retryable_errors = true) ->
    reply (gets + k)%nat = Response status (JsonValue v) ->
    retry_loop fuel cfg u reply (PyInt z) gets failed
    = Some (Returned (Some {| url := str u; status_code := status; body := v |}),
            S (gets + k), failed + Z.of_nat k).
Proof.
  intros Hlimit Hnum Hstatus.
  induction k as [|k IH]; intros z fuel gets failed Hz Hfuel Hfail Hreply;
    (destruct fuel as [|fuel]; [lia|]); cbn [retry_loop];
    (replace (truthy (PyInt z)) with true
       by (symmetry; unfold truthy; apply negb_true_iff, Z.eqb_neq; lia)).
  - rewrite Nat.add_0_r in Hreply. rewrite Hreply. unfold try_once. rewrite Hstatus.
    simpl. f_equal. f_equal; [f_equal; lia|lia].
  - destruct (Hfail gets) as (e & Hraised & Hretry); [lia|].
    rewrite (try_once_raised _ _ _ _ _ Hraised),
      (on_exception_retry _ _ _ _ Hlimit Hretry), Hnum.
    rewrite (IH (z - 1) fuel (S gets) (failed + 1)); [|lia|lia| |].
    + f_equal. f_equal; [f_equal; lia|lia].
    + intros n Hn. apply Hfail. lia.
    + by replace (S gets + k)%nat with (gets + S k)%nat by lia.
Qed.

(** With the default budget, a URL that answers with a status outside the
    error list and a JSON body after [k] retryable failures, [k] below five
    ([k = 0]: at the first GET), gives the populated record of that answer,
    with [k + 1] GETs and [k] more on the failure counter. *)
Theorem fetch_recovers_after_retries environ u reply failed fuel (k : nat) status v :
  environ !! "LIMIT_OF_ATTEMPTS_TO_RETRY" = None ->
  (k < 5)%nat ->
  (k < fuel)%nat ->
  (forall n, (n < k)%nat ->
     exists e, raised_in_try (load_Config environ) (reply n) = Some e /\
               except_matches e retryable_errors = true) ->
  reply k = Response status (JsonValue v) ->
  status ∉ [400; 403; 404; 500] ->
  _fetch fuel (load_Config environ) u reply failed
  = Some (Returned (Some {| url := str u; status_code := status; body := v |}),
          S k, failed + Z.of_nat k).
Proof.
  intros Hunset Hk Hfuel Hfail Hreply Hstatus. unfold _fetch.
  rewrite (load_Config_default_limit _ Hunset).
  apply (retry_loop_recovers (load_Config environ) u reply 5 status v k
           (load_Config_default_limit _ Hunset) eq_refl); [|lia|done| |done].
  - simpl. set_unfold.
    destruct (status =? 400) eqn:H400; [apply Z.eqb_eq in H400; tauto|].
    destruct (status =? 403) eqn:H403; [apply Z.eqb_eq in H403; tauto|].
    destruct (status =? 404) eqn:H404; [apply Z.eqb_eq in H404; tauto|].
    destruct (status =? 500) eqn:H500; [apply Z.eqb_eq in H500; tauto|].
    reflexivity.
  - intros n Hn. apply Hfail. lia.
Qed.

Lemma fetch_recovers_after_retries_witness :
  _fetch 3 (load_Config ∅) {| str := "https://example.com/wp-json/wp/v2/users" |}
    (fun n => if (n <? 2)%nat then GetRaises ServerDisconnectedError
              else Response 200 (JsonValue admin_body)) 0
  = Some (Returned (Some {| url := "https://example.com/wp-json/wp/v2/users";
                            status_code := 200; body := admin_body |}),
          3%nat, 0 + 2).
Proof.
  apply (fetch_recovers_after_retries ∅ users_endpoint _ 0 3 2 200 admin_body);
    [reflexivity|lia|lia| |reflexivity|set_unfold; lia].
  intros n Hn. destruct n as [|[|n]]; [| |lia]; eexists; split; reflexivity.
Defined.

Lemma on_exception_no_record cfg attempts_left e r :
  on_exception cfg attempts_left e <> Finish (Returned (Some r)).
Proof.
  unfold on_exception.
  destruct (except_matches e retryable_errors).
  - destruct (py_sub _ attempts_left); [|done].
    destruct (py_add _ _); [|done]. by destruct (py_sub _ _).
  - by destruct (except_matches e url_fatal_errors).
Qed.

Lemma retry_loop_record cfg u reply fuel attempts_left gets0 failed r gets failed' :
  retry_loop fuel cfg u reply attempts_left gets0 failed
  = Some (Returned (Some r), gets, failed') ->
  url r = str u
  /\ existsb (Z.eqb (status_code r)) (ERRORS_STATUS_CODES cfg) = false
  /\ exists n, gets = S n /\ reply n = Response (status_code r) (JsonValue (body r)).
Proof.
  revert failed gets0 attempts_left.
  induction fuel as [|fuel IH]; intros failed gets0 attempts_left Hloop;
    cbn [retry_loop] in Hloop; (destruct (truthy attempts_left); [|done]); [done|].
  destruct (try_once cfg u attempts_left (reply gets0)) as [attempts_left'|o] eqn:Htry.
  { by eapply IH. }
  injection Hloop as -> <- <-. unfold try_once in Htry.
  destruct (reply gets0) as [e|status [v|e]] eqn:Hreply.
  - by destruct (on_exception_no_record cfg attempts_left e r).
  - destruct (negb _) eqn:Hstatus; [|done]. injection Htry as <-. simpl.
    apply negb_true_iff in Hstatus. eauto.
  - destruct (negb _); [|done]. by destruct (on_exception_no_record cfg attempts_left e r).
Qed.

(** A populated record carries the URL that was requested, a status that is
    not in [Config.ERRORS_STATUS_CODES], and the status and body of the reply
    to the last GET of the worker. *)
Theorem fetch_record_is_last_reply cfg u reply fuel failed r gets failed' :
  _fetch fuel cfg u reply failed = Some (Returned (Some r), gets, failed') ->
  url r = str u
  /\ existsb (Z.eqb (status_code r)) (ERRORS_STATUS_CODES cfg) = false
  /\ exists n, gets = S n /\ reply n = Response (status_code r) (JsonValue (body r)).
Proof. apply retry_loop_record. Qed.

Lemma fetch_record_is_last_reply_witness :
  url {| url := "https://example.com/wp-json/wp/v2/users";
         status_code := 200; body := admin_body |}
  = str users_endpoint.
Proof.
  refine (proj1 (fetch_record_is_last_reply (load_Config ∅) users_endpoint
                   (fun n => if (n <? 2)%nat then GetRaises ServerDisconnectedError
                             else Response 200 (JsonValue admin_body))
                   3 0 _ 3 2 _)).
  reflexivity.
Defined.

(** When [LIMIT_OF_ATTEMPTS_TO_RETRY] is set in the environment the budget is
    a [str]: no URL is ever requested twice and the failure counter never
    moves; set to the empty text, no URL is requested at all. *)
Theorem fetch_env_budget_never_retries environ text u reply failed fuel :
  environ !! "LIMIT_OF_ATTEMPTS_TO_RETRY" = Some text ->
  exists o gets,
    _fetch (S fuel) (load_Config environ) u reply failed = Some (o, gets, failed)
    /\ (gets <= 1)%nat
    /\ (text = "" -> gets = 0%nat /\ o = Returned None).
Proof.
  intros Hset. unfold _fetch. rewrite (load_Config_env_limit _ _ Hset).
  cbn [retry_loop]. destruct (truthy (PyStr text)) eqn:Htruthy.
  - assert (Hne : text <> "").
    { intros ->. discriminate. }
    assert (Hexc : forall e, exists o,
              on_exception (load_Config environ) (PyStr text) e = Finish o).
    { intros e. unfold on_exception. rewrite (load_Config_env_limit _ _ Hset).
      destruct (except_matches e retryable_errors); [simpl; eauto|].
      destruct (except_matches e url_fatal_errors); eauto. }
    assert (Htry : exists o,
              try_once (load_Config environ) u (PyStr text) (reply 0%nat) = Finish o).
    { unfold try_once. destruct (reply 0%nat) as [e|status [v|e]]; [done| |].
      - destruct (negb _); eauto.
      - destruct (negb _); eauto. }
    destruct Htry as [o ->]. exists o, 1%nat. split; [done|]. split; [lia|done].
  - exists (Returned None), 0%nat. split; [done|]. split; [lia|done].
Qed.

Lemma fetch_env_budget_never_retries_witness :
  exists o gets,
    _fetch 1 (load_Config {[ "LIMIT_OF_ATTEMPTS_TO_RETRY" := "" ]})
      {| str := "https://example.com/wp-json/wp/v2/users" |}
      (fun _ => Response 200 (JsonValue admin_body)) 4
    = Some (o, gets, 4)
    /\ (gets <= 1)%nat
    /\ ("" = "" -> gets = 0%nat /\ o = Returned None).
Proof.
  apply (fetch_env_budget_never_retries
           {[ "LIMIT_OF_ATTEMPTS_TO_RETRY" := "" ]} "" _ _ 4 0).
  reflexivity.
Defined.

(** ** Further properties of the scan *)

Lemma sublist_of_lookups {A B : Type} (f : A -> B) (results : list (option A)) (xs : list B) :
  length results = length xs ->
  (forall i r, results !! i = Some (Some r) -> xs !! i = Some (f r)) ->
  f <$> omap id results `sublist_of` xs.
Proof.
  revert xs. induction results as [|[r|] results IH]; intros [|x xs] Hlen Hlookup;
    simplify_eq/=; [constructor|..].
  - injection (Hlookup 0%nat r eq_refl) as ->. apply sublist_skip, IH; [done|].
    intros i r'. apply (Hlookup (S i)).
  - apply sublist_cons, IH; [done|].
    intros i r'. apply (Hlookup (S i)).
Qed.

Lemma gather_entries cfg net m results :
  consistent cfg net m ->
  gather m = Some (Returned results) ->
  (forall i r, results !! i = Some (Some r) ->
     exists u, _urls m !! i = Some u /\ url r = str u
               /\ existsb (Z.eqb (status_code r)) (ERRORS_STATUS_CODES cfg) = false)
  /\ url <$> omap id results `sublist_of` str <$> _urls m.
Proof.
  intros Hm Hgather.
  destruct (gather_returned _ _ _ _ Hm Hgather) as (Hlen & added & _ & _ & Hresults).
  assert (Hentry : forall i r, results !! i = Some (Some r) ->
            exists u, _urls m !! i = Some u /\ url r = str u
                      /\ existsb (Z.eqb (status_code r)) (ERRORS_STATUS_CODES cfg) = false).
  { intros i r Hr.
    destruct (lookup_lt_is_Some_2 (_urls m) i) as [u Hu].
    { rewrite <- Hlen. by eapply lookup_lt_Some. }
    destruct (Hresults i u Hu) as (r' & fuel & gets & k & Hr' & _ & Hfetch).
    assert (r' = Some r) as -> by (unfold fetched in *; congruence).
    destruct (retry_loop_record _ _ _ _ _ _ _ _ _ _ Hfetch) as (Hurl & Hstatus & _).
    eauto. }
  split; [done|]. apply sublist_of_lookups; [by rewrite length_fmap|].
  intros i r Hr. destruct (Hentry i r Hr) as (u & Hu & -> & _).
  by rewrite list_lookup_fmap, Hu.
Qed.

(** When [make_requests] returns, every populated entry of its list records
    [str(url)] of the [URL] object built from the candidate at the same
    position, with a status outside [Config.ERRORS_STATUS_CODES]; the URLs of
    the populated entries are those of the objects that answered, in the
    order of the candidate list. *)
Theorem populated_results_follow_candidates yarl cfg net urls objects choices results :
  mapM yarl urls = Some objects ->
  create_make_requests yarl cfg urls net choices = Some (Returned results) ->
  (forall i r, results !! i = Some (Some r) ->
     exists u, objects !! i = Some u /\ url r = str u
               /\ existsb (Z.eqb (status_code r)) (ERRORS_STATUS_CODES cfg) = false)
  /\ url <$> omap id results `sublist_of` str <$> objects.
Proof.
  intros Hobjects Hscan.
  destruct (create_make_requests_objects yarl cfg urls objects net choices Hobjects)
    as (Heq & _).
  rewrite Heq in Hscan.
  pose proof (run_consistent cfg net choices _
                (new_RequestManager_consistent cfg net objects)) as Hm.
  pose proof (gather_entries _ _ _ _ Hm Hscan) as Hentries.
  by rewrite run_urls in Hentries.
Qed.

Lemma populated_results_follow_candidates_witness :
  url <$> omap id [None; Some {| url := "https://example.com/wp-json/wp/v2/users";
                                 status_code := 200; body := admin_body |}; None]
  `sublist_of` str <$> sample_objects.
Proof.
  refine (proj2 (populated_results_follow_candidates plain_yarl (load_Config ∅)
                   sample_network sample_urls sample_objects
                   [2; 0; 1; 0; 0; 1; 0; 0; 0; 0]%nat _ _ _)).
  - reflexivity.
  - vm_compute. reflexivity.
Defined.

Lemma failed_requests_num_is_sum_witness :
  exists added : list Z,
    _failed_requests_num
      (run (load_Config ∅) sample_network (seq 0 18)
         (new_RequestManager (load_Config ∅) sample_objects)) = total added
    /\ length added = length sample_urls
    /\ forall i u, sample_objects !! i = Some u ->
         exists r fuel gets k,
           added !! i = Some k /\
           _fetch fuel (load_Config ∅) u (sample_network i) 0 = Some (Returned r, gets, k).
Proof.
  apply (failed_requests_num_is_sum plain_yarl (load_Config ∅) sample_network
           sample_urls sample_objects (seq 0 18)
           [None; Some {| url := "https://example.com/wp-json/wp/v2/users";
                          status_code := 200; body := admin_body |}; None]).
  - reflexivity.
  - vm_compute. reflexivity.
Defined.

Lemma total_bounds (ks : list Z) (b : Z) :
  (forall i k, ks !! i = Some k -> 0 <= k <= b) ->
  0 <= total ks <= b * Z.of_nat (length ks).
Proof.
  induction ks as [|k ks IH]; intros Hks; simpl; [lia|].
  pose proof (Hks 0%nat k eq_refl).
  assert (0 <= total ks <= b * Z.of_nat (length ks))
    by (apply IH; intros i k'; apply (Hks (S i))).
  lia.
Qed.

(** With the budget variable unset, when [make_requests] returns,
    [failed_requests_num] lies between 0 and five times the number of URLs. *)
Theorem failed_requests_num_bounds yarl environ net urls objects choices results :
  environ !! "LIMIT_OF_ATTEMPTS_TO_RETRY" = None ->
  mapM yarl urls = Some objects ->
  create_make_requests yarl (load_Config environ) urls net choices = Some (Returned results) ->
  0 <= _failed_requests_num
         (run (load_Config environ) net choices
            (new_RequestManager (load_Config environ) objects))
    <= 5 * Z.of_nat (length urls).
Proof.
  intros Hunset Hobjects Hscan.
  destruct (failed_requests_num_is_sum _ _ _ _ _ _ _ Hobjects Hscan)
    as (added & -> & Hlen & Hadded).
  destruct (create_make_requests_objects yarl (load_Config environ) urls objects net choices
              Hobjects) as (_ & Hlen').
  rewrite <- Hlen. apply total_bounds. intros i k Hk.
  destruct (lookup_lt_is_Some_2 objects i) as [u Hu].
  { rewrite Hlen', <- Hlen. by eapply lookup_lt_Some. }
  destruct (Hadded i u Hu) as (r & fuel & gets & k' & Hk' & Hfetch).
  assert (k' = k) as -> by congruence.
  unfold _fetch in Hfetch. rewrite (load_Config_default_limit _ Hunset) in Hfetch.
  destruct (retry_loop_budget_bounds (load_Config environ) u (net i) 5 5
              (load_Config_default_limit _ Hunset) eq_refl (fuel `max` 5)%nat 0%nat 0)
    as (o & gets' & failed' & Hloop & _ & Hfailed & _); [lia|].
  apply (retry_loop_more_fuel _ _ _ _ (fuel `max` 5)%nat) in Hfetch; [|lia].
  change (Z.of_nat 5) with 5 in Hloop. rewrite Hfetch in Hloop.
  injection Hloop as _ _ <-. lia.
Qed.

Lemma failed_requests_num_bounds_witness :
  0 <= _failed_requests_num
         (run (load_Config ∅) sample_network (seq 0 18)
            (new_RequestManager (load_Config ∅) sample_objects))
    <= 5 * Z.of_nat (length sample_urls).
Proof.
  apply (failed_requests_num_bounds plain_yarl ∅ sample_network sample_urls sample_objects
           (seq 0 18)
           [None; Some {| url := "https://example.com/wp-json/wp/v2/users";
                          status_code := 200; body := admin_body |}; None]);
    [reflexivity|reflexivity|vm_compute; reflexivity].
Defined.

Lemma nothing_ready_all_done cfg net m :
  consistent cfg net m ->
  (1 <= SIMULTANEOUS_CONCURRENT_TASKS cfg)%nat ->
  ready m = [] ->
  forall i t, tasks m !! i = Some t -> exists o gets, t = Done o gets.
Proof.
  intros (_ & Hslots & _) Hslot Hready.
  pose proof (positions_nil _ _ _ Hready) as Hidle.
  assert (Hnone : in_flight m = 0%nat).
  { unfold in_flight. clear -Hidle. induction (tasks m) as [|t ts IH]; [done|]. csimpl.
    rewrite IH by (intros i t' Hi; by apply (Hidle (S i))).
    pose proof (Hidle 0%nat t eq_refl). by destruct t. }
  intros i t Ht. pose proof (Hidle _ _ Ht) as Hrun.
  destruct t as [| |o gets]; simpl in *; [|done|eauto].
  apply Nat.ltb_ge in Hrun. lia.
Qed.

(** No deadlock on the semaphore: with at least one slot, whatever the network
    and the order of resumptions, the only moments at which no worker can run
    are those at which every worker has finished. *)
Theorem scan_never_deadlocks cfg net urls choices :
  (1 <= SIMULTANEOUS_CONCURRENT_TASKS cfg)%nat ->
  ready (run cfg net choices (new_RequestManager cfg urls)) = [] ->
  forall i t, tasks (run cfg net choices (new_RequestManager cfg urls)) !! i = Some t ->
    exists o gets, t = Done o gets.
Proof.
  intros Hslot. apply (nothing_ready_all_done cfg net); [|done].
  apply run_consistent, new_RequestManager_consistent.
Qed.

Lemma scan_never_deadlocks_witness :
  exists o gets, Done (Returned None) 5 = Done o gets.
Proof.
  apply (scan_never_deadlocks (load_Config ∅) sample_network sample_objects (seq 0 18)
           ltac:(simpl; lia) ltac:(vm_compute; reflexivity) 0%nat (Done (Returned None) 5)).
  vm_compute. reflexivity.
Defined.

(** ** Further properties of the generator *)

Lemma strip_prefix_Some (p s r : string) :
  strip_prefix p s = Some r <-> s = p +:+ r.
Proof.
  revert s. induction p as [|a p IH]; intros s; simpl.
  - split; [by intros [= ->]|by intros ->].
  - destruct s as [|b s]; [split; discriminate|].
    destruct (Ascii.eqb a b) eqn:Hab.
    + apply Ascii.eqb_eq in Hab as ->. rewrite IH. split; [by intros ->|by intros [= ->]].
    + apply Ascii.eqb_neq in Hab. split; [discriminate|]. intros [= -> _]. done.
Qed.

Lemma strip_prefix_None (p s : string) :
  strip_prefix p s = None <-> forall r, s <> p +:+ r.
Proof.
  split.
  - intros Hnone r Hr. apply strip_prefix_Some in Hr. congruence.
  - intros Hno. destruct (strip_prefix p s) as [r|] eqn:Hr; [|done].
    apply strip_prefix_Some in Hr. by destruct (Hno r).
Qed.

(** [strip_scheme] removes a leading [https://] or a leading [http://], in
    lower case and once, and leaves every other text as it is. *)
Theorem strip_scheme_cases (target : string) :
  (exists d, target = "https://" +:+ d /\ strip_scheme target = d)
  \/ (exists d, target = "http://" +:+ d /\ strip_scheme target = d)
  \/ ((forall d, target <> "https://" +:+ d)
      /\ (forall d, target <> "http://" +:+ d)
      /\ strip_scheme target = target).
Proof.
  assert (Hother : forall p d, strip_prefix p target = None -> target <> p +:+ d).
  { intros p d Hnone. by apply strip_prefix_None. }
  unfold strip_scheme.
  destruct (strip_prefix "http" target) as [rest|] eqn:Hhttp.
  - apply strip_prefix_Some in Hhttp. subst target.
    destruct (strip_prefix "s" rest) as [rest_s|] eqn:Hs.
    + apply strip_prefix_Some in Hs. subst rest.
      destruct (strip_prefix "://" rest_s) as [tail|] eqn:Htail.
      * apply strip_prefix_Some in Htail. subst rest_s. left. by exists tail.
      * right. right. split; [|split; [|done]]; intros d; apply Hother.
        -- exact Htail.
        -- reflexivity.
    + destruct (strip_prefix "://" rest) as [tail|] eqn:Htail.
      * apply strip_prefix_Some in Htail. subst rest. right. left. by exists tail.
      * right. right. split; [|split; [|done]]; intros d; apply Hother.
        -- change (strip_prefix "s://" rest = None).
           destruct rest as [|b rest']; [done|]. cbn [strip_prefix] in Hs |- *.
           by destruct (Ascii.eqb _ b).
        -- exact Htail.
  - right. right. split; [|split; [|done]]; intros d ->; discriminate.
Qed.

Lemma numbered_candidates_NoDup :
  NoDup ((fun i => "/wp-json/wp/v2/users/" +:+ str_of_int i) <$> range 1 1000).
Proof.
  apply NoDup_fmap_2; [|apply NoDup_seqZ].
  intros i j Heq. apply String.app_inj in Heq. by apply pretty_Z_inj.
Qed.

Lemma targets_to_check_NoDup (c : Ascii.ascii) (t : string) :
  c <> Ascii.ascii_of_nat 47 ->
  NoDup (targets_to_check (String c t)).
Proof.
  intros Hc. unfold targets_to_check.
  set (target := String c t).
  set (search := "/wp-json/wp/v2/users?search=admin@" +:+ strip_scheme target).
  assert (Hnumbered : forall x,
            x ∈ (fun i => "/wp-json/wp/v2/users/" +:+ str_of_int i) <$> range 1 1000 ->
            exists rest, x = String (Ascii.ascii_of_nat 47) rest).
  { intros x Hx. apply list_elem_of_fmap in Hx as (i & -> & _). eexists. reflexivity. }
  assert (Hprefixed : forall suffix rest,
            target +:+ suffix <> String (Ascii.ascii_of_nat 47) rest).
  { intros suffix rest [= -> _]. done. }
  rewrite <- app_assoc. apply NoDup_app. split; [|split].
  - change (NoDup (String.append target <$>
              [ "/blog/wp-json/wp/v2/users"; "/blog/?rest_route=/wp/v2/users";
                "/wp-json/wp/v2/users"; "/section/news?rest_route=/wp/v2/users";
                "/section/news?rest_route=/wp/v2/usErs" ])).
    apply NoDup_fmap_2; [apply String.app_inj|]. compute_done.
  - intros x Hx Hin. apply elem_of_app in Hin as [Hin|Hin].
    + destruct (Hnumbered x Hin) as [rest ->].
      set_unfold. destruct_or!; by eapply Hprefixed.
    + apply list_elem_of_singleton in Hin as ->.
      set_unfold. destruct_or!;
        match goal with H : _ = _ |- _ => apply String.app_inj in H; discriminate H end.
  - apply NoDup_app. split; [apply numbered_candidates_NoDup|]. split; [|apply NoDup_singleton].
    intros x Hx Hin. apply list_elem_of_singleton in Hin as ->.
    destruct (Hnumbered _ Hx) as [rest Hrest]. by eapply Hprefixed.
Qed.

(** The candidates [main] builds for a domain, on either scheme, are 1005
    pairwise different texts. *)
Theorem main_candidates_are_distinct (d : string) :
  NoDup (targets_to_check ("https://" +:+ d))
  /\ NoDup (targets_to_check ("http://" +:+ d)).
Proof. split; by apply targets_to_check_NoDup. Qed.

(** ** Further properties of the command line, the logger and [main] *)

(** The debug flag that [cli] hands on is true when [--verbose] is given, and
    otherwise whenever [DEFAULT_DEBUGGING] is set in the environment to any
    text but the empty one, [0] and [false] included. *)
Theorem cli_verbose_from_environment environ argv ns :
  cli (load_Config environ) argv = Returned ns ->
  truthy (ns_verbose ns) = true
  <-> given_verbose argv = true
      \/ exists text, environ !! "DEFAULT_DEBUGGING" = Some text /\ text <> "".
Proof.
  unfold cli. destruct (given_help argv); [done|].
  destruct (given_domain argv) as [d|]; [|done]. intros [= <-]. simpl.
  destruct (given_verbose argv); [by split; [left|]|].
  unfold environ_get. destruct (environ !! "DEFAULT_DEBUGGING") as [text|]; simpl.
  - rewrite negb_true_iff, String.eqb_neq. split; [eauto|].
    by intros [|(text' & [= <-] & Hne)].
  - split; [done|]. by intros [|(text' & ? & _)].
Qed.

Lemma cli_verbose_from_environment_witness :
  truthy (PyStr "0") = true
  <-> false = true
      \/ exists text,
           ({[ "DEFAULT_DEBUGGING" := "0" ]} : gmap string string) !! "DEFAULT_DEBUGGING"
           = Some text /\ text <> "".
Proof.
  apply (cli_verbose_from_environment {[ "DEFAULT_DEBUGGING" := "0" ]}
           {| given_help := false; given_domain := Some "example.com";
              given_verbose := false; given_output := None |}
           {| ns_domain := "example.com"; ns_verbose := PyStr "0";
              ns_output := "results.json" |}).
  reflexivity.
Defined.

Lemma remove_newlines_chars (s : string) :
  String.list_ascii_of_string (remove_newlines s)
  = List.filter (fun c => negb (Ascii.eqb c line_feed)) (String.list_ascii_of_string s).
Proof.
  induction s as [|c s IH]; [done|]. cbn [remove_newlines String.list_ascii_of_string List.filter].
  destruct (Ascii.eqb c line_feed); simpl; by rewrite IH.
Qed.

(** A record that carries exception text is formatted on one line: the text
    [logging.Formatter.format] gives, message included, with every line feed
    taken out and nothing else changed; formatting that again changes
    nothing. *)
Theorem format_with_exception_is_one_line (formatted text : string) :
  text <> "" ->
  String.list_ascii_of_string (format formatted (Some text))
  = List.filter (fun c => negb (Ascii.eqb c line_feed)) (String.list_ascii_of_string formatted)
  /\ ~ In line_feed (String.list_ascii_of_string (format formatted (Some text)))
  /\ format (format formatted (Some text)) (Some text) = format formatted (Some text).
Proof.
  intros Htext. unfold format.
  replace (negb (String.eqb text "")) with true
    by (symmetry; apply negb_true_iff, String.eqb_neq, Htext).
  pose proof (remove_newlines_chars formatted) as Hchars.
  assert (Hnone : forall s, ~ In line_feed (String.list_ascii_of_string (remove_newlines s))).
  { intros s. rewrite remove_newlines_chars. intros [_ Hlf]%filter_In.
    by rewrite Ascii.eqb_refl in Hlf. }
  assert (Hsame : forall s, ~ In line_feed (String.list_ascii_of_string s) -> remove_newlines s = s).
  { intros s. induction s as [|c s IH]; [done|]. cbn [remove_newlines String.list_ascii_of_string].
    intros Hnot. destruct (Ascii.eqb c line_feed) eqn:Hc.
    - apply Ascii.eqb_eq in Hc as ->. destruct Hnot. by left.
    - rewrite IH; [done|]. intros Hin. apply Hnot. by right. }
  split; [done|]. split; [apply Hnone|apply Hsame, Hnone].
Qed.

Lemma format_with_exception_is_one_line_witness :
  ~ In line_feed
      (String.list_ascii_of_string
         (format ("ERROR:root:Failed with: boom" +:+ String line_feed "'Traceback'")
            (Some "'Traceback'"))).
Proof.
  refine (proj1 (proj2 (format_with_exception_is_one_line
                          ("ERROR:root:Failed with: boom" +:+ String line_feed "'Traceback'")
                          "'Traceback'" _))).
  discriminate.
Defined.

Lemma logger_initialisation_default (environ : gmap string string) (debug : pyval) :
  environ !! "LOGLEVEL" = None ->
  logger_initialisation environ debug = Returned ().
Proof.
  intros Hunset. unfold logger_initialisation, environ_get_str. rewrite Hunset.
  by destruct (truthy debug).
Qed.

Section MainFacts.

Variable yarl : string -> option URL.
Variable json_dumps : list fetched -> string.

(** When [-h] is given or [--domain] is missing, argparse ends the process:
    the exit status is 0 after [-h] and 2 for the missing option, nothing is
    handed to [logging.exception], no request is made and the disk is left as
    it was. *)
Theorem argparse_exit_status w :
  given_help (argv w) = true \/ given_domain (argv w) = None ->
  script yarl json_dumps w
  = Some {| exit_status := if given_help (argv w) then 0 else 2;
            logged_exceptions := []; disk_after := disk w |}.
Proof.
  intros Hargs. unfold script, main, cli.
  destruct (given_help (argv w)); [done|].
  destruct Hargs as [|Hnone]; [done|]. by rewrite Hnone.
Qed.

(** A [LOGLEVEL] that is not the name of a logging level makes [main] end with
    [ValueError] before the scheme probe and before any request; the
    [__main__] block logs it and the exit status is 0. *)
Theorem invalid_loglevel_stops_main w args level :
  cli (load_Config (environ w)) (argv w) = Returned args ->
  environ w !! "LOGLEVEL" = Some level ->
  level ∉ level_names ->
  main yarl json_dumps w = Some (Raised ValueError, disk w)
  /\ script yarl json_dumps w
     = Some {| exit_status := 0; logged_exceptions := [ValueError]; disk_after := disk w |}.
Proof.
  intros Hcli Hlevel Hname.
  assert (Hmain : main yarl json_dumps w = Some (Raised ValueError, disk w)).
  { unfold main. rewrite Hcli. simpl.
    unfold logger_initialisation, environ_get_str. rewrite Hlevel.
    assert (Hno : existsb (String.eqb level) level_names = false).
    { apply not_true_is_false. intros (name & Hin & Heq)%existsb_exists.
      apply String.eqb_eq in Heq as <-. by apply Hname, list_elem_of_In. }
    by rewrite Hno. }
  split; [done|]. unfold script. by rewrite Hmain.
Qed.

(** A scheme probe that fails with anything but [ClientConnectorError] is not
    caught: [main] ends with that exception, a timeout or a disconnect
    included, before any candidate is requested. *)
Theorem probe_failure_stops_main w args e :
  cli (load_Config (environ w)) (argv w) = Returned args ->
  environ w !! "LOGLEVEL" = None ->
  https_get w ("https://" +:+ ns_domain args) = ProbeRaises e ->
  issubclass e ClientConnectorError = false ->
  main yarl json_dumps w = Some (Raised e, disk w).
Proof.
  intros Hcli Hlevel Hprobe Hclass. unfold main. rewrite Hcli. simpl.
  rewrite (logger_initialisation_default _ _ Hlevel).
  unfold probe_target_schema. rewrite Hprobe.
  unfold except_matches. simpl. by rewrite Hclass.
Qed.

(** When [main] returns, the scan ran on the [URL] objects yarl built from the
    candidates of the probed scheme and the given domain, and the file named
    by [Config.RESULT_FILE_NAME], and no other, now holds [json.dumps] of the
    populated records, whose URLs are [str(url)] of objects that answered, in
    the order of the candidate list. *)
Theorem main_success_writes_populated_results w d :
  main yarl json_dumps w = Some (Returned (), d) ->
  exists dmn schema objects results,
    given_help (argv w) = false
    /\ given_domain (argv w) = Some dmn
    /\ (schema = "https" \/ schema = "http")
    /\ mapM yarl (targets_to_check (schema +:+ "://" +:+ dmn)) = Some objects
    /\ create_make_requests yarl (load_Config (environ w))
         (targets_to_check (schema +:+ "://" +:+ dmn)) (network w) (choices w)
       = Some (Returned results)
    /\ d = {| files := <[RESULT_FILE_NAME (load_Config (environ w)) :=
                           json_dumps (Some <$> omap id results)]> (files (disk w));
              unwritable := unwritable (disk w) |}
    /\ url <$> omap id results `sublist_of` str <$> objects.
Proof.
  unfold main, cli.
  destruct (given_help (argv w)); [done|].
  destruct (given_domain (argv w)) as [dmn|]; [|done]. simpl.
  destruct (logger_initialisation _ _); [|done].
  destruct (probe_target_schema (https_get w) dmn) as [schema|] eqn:Hprobe; [|done].
  destruct (create_make_requests yarl _ _ _ _) as [[results|]|] eqn:Hscan; [|done..].
  rewrite filter_truthy_omap. unfold write_results_to_file, open_and_write.
  destruct (decide _); [done|]. intros [= <-].
  destruct (create_make_requests_returned _ _ _ _ _ _ Hscan) as [objects Hobjects].
  exists dmn, schema, objects, results. split; [done|]. split; [done|].
  split; [|split; [done|split; [done|split; [done|]]]].
  - unfold probe_target_schema in Hprobe.
    destruct (https_get w _) as [[]|e]; simplify_eq; [by left|by right|].
    destruct (except_matches e _); simplify_eq. by right.
  - destruct (create_make_requests_objects yarl (load_Config (environ w)) _ objects
                (network w) (choices w) Hobjects) as (Heq & _).
    rewrite Heq in Hscan.
    pose proof (run_consistent (load_Config (environ w)) (network w) (choices w) _
                  (new_RequestManager_consistent _ (network w) objects)) as Hm.
    pose proof (gather_entries _ _ _ _ Hm Hscan) as (_ & Hsub).
    by rewrite run_urls in Hsub.
Qed.

End MainFacts.

Lemma argparse_exit_status_witness :
  script plain_yarl (fun _ => "[]") no_domain_world
  = Some {| exit_status := if given_help (argv no_domain_world) then 0 else 2;
            logged_exceptions := []; disk_after := disk no_domain_world |}.
Proof. apply argparse_exit_status. by right. Defined.

Lemma invalid_loglevel_stops_main_witness :
  main plain_yarl (fun _ => "[]") bad_loglevel_world
  = Some (Raised ValueError, disk bad_loglevel_world)
  /\ script plain_yarl (fun _ => "[]") bad_loglevel_world
     = Some {| exit_status := 0; logged_exceptions := [ValueError];
               disk_after := disk bad_loglevel_world |}.
Proof.
  apply (invalid_loglevel_stops_main plain_yarl (fun _ => "[]") bad_loglevel_world
           {| ns_domain := "example.com"; ns_verbose := PyBool true;
              ns_output := "results.json" |} "verbose"); [reflexivity|reflexivity|].
  unfold level_names. set_unfold. intros H. destruct_or!; discriminate.
Defined.

Lemma probe_failure_stops_main_witness :
  main plain_yarl (fun _ => "[]") probe_timeout_world
  = Some (Raised ServerTimeoutError, disk probe_timeout_world).
Proof.
  apply (probe_failure_stops_main plain_yarl (fun _ => "[]") probe_timeout_world
           {| ns_domain := "example.com"; ns_verbose := PyBool false;
              ns_output := "results.json" |});
    reflexivity.
Defined.

Lemma main_success_writes_populated_results_witness :
  exists dmn schema objects results,
    given_help (argv scenario_world) = false
    /\ given_domain (argv scenario_world) = Some dmn
    /\ (schema = "https" \/ schema = "http")
    /\ mapM plain_yarl (targets_to_check (schema +:+ "://" +:+ dmn)) = Some objects
    /\ create_make_requests plain_yarl (load_Config (environ scenario_world))
         (targets_to_check (schema +:+ "://" +:+ dmn))
         (network scenario_world) (choices scenario_world)
       = Some (Returned results)
    /\ {| files := {[ "results.json" := "[]" ]}; unwritable := ∅ |}
       = {| files := <[RESULT_FILE_NAME (load_Config (environ scenario_world)) :=
                         (fun _ => "[]") (Some <$> omap id results)]>
                       (files (disk scenario_world));
            unwritable := unwritable (disk scenario_world) |}
    /\ url <$> omap id results `sublist_of` str <$> objects.
Proof.
  apply (main_success_writes_populated_results plain_yarl (fun _ => "[]") scenario_world).
  vm_compute. reflexivity.
Defined.

Lemma main_writes_result_file_only_witness :
  files {| files := {[ "results.json" := "[]" ]}; unwritable := ∅ |} !! "out.json"
  = files (disk scenario_world) !! "out.json".
Proof.
  apply (main_writes_result_file_only plain_yarl (fun _ => "[]") scenario_world (Returned ()));
    [vm_compute; reflexivity|discriminate].
Defined.

(** ** The scan ends, whatever the network does *)

Section Termination.

Variable cfg : Config.
Variable net : nat -> nat -> attempt.
Hypothesis default_limit : LIMIT_OF_ATTEMPTS_TO_RETRY cfg = PyInt 5.
Hypothesis default_step : REQUESTS_RETRIES_NUM_TO_REMOVE cfg = 1.
Hypothesis some_slot : (1 <= SIMULTANEOUS_CONCURRENT_TASKS cfg)%nat.

Lemma next_task_int_budget u i t :
  within_int_budget t ->
  within_int_budget (next_task cfg u (net i) t)
  /\ match t with
     | Done _ _ => True
     | _ => (resumptions_left (next_task cfg u (net i) t) < resumptions_left t)%nat
     end.
Proof using default_limit default_step some_slot.
  destruct t as [|attempts_left gets|o gets]; simpl; [| |done].
  - intros _. rewrite default_limit. simpl. split; [|lia].
    exists 5. split; [done|lia].
  - intros (z & -> & Hz).
    destruct (try_once_int_budget cfg u 5 z (net i gets) default_limit) as [->|[o ->]];
      simpl; [|split; [done|lia]].
    rewrite default_step. destruct (z - 1 =? 0) eqn:Hzero; simpl; [split; [done|lia]|].
    apply Z.eqb_neq in Hzero. split; [|lia]. exists (z - 1). split; [done|lia].
Qed.

Lemma resume_budgeted m i t :
  budgeted cfg net m ->
  tasks m !! i = Some t ->
  runnable m t = true ->
  budgeted cfg net (resume cfg net i m)
  /\ (work_left (resume cfg net i m) < work_left m)%nat.
Proof using default_limit default_step some_slot.
  intros (Hm & Hrecorded & Hbudget) Ht Hrun.
  destruct (lookup_lt_is_Some_2 (_urls m) i) as [u Hu].
  { destruct Hm as (<- & _). by eapply lookup_lt_Some. }
  destruct (resume_next_task cfg net m i t u Hm Ht Hu Hrun) as (Htasks & Hraised).
  destruct (next_task_int_budget u i t (Hbudget _ _ Ht)) as (Hnext & Hless).
  split; [split; [by apply resume_consistent|split]|].
  - intros j e gets. rewrite Htasks, Hraised. destruct (decide (i = j)) as [<-|Hne].
    + rewrite list_lookup_insert_eq by (by eapply lookup_lt_Some).
      intros [= ->]. simpl. by destruct (gather_raised m).
    + rewrite list_lookup_insert_ne by done. intros Hj.
      pose proof (Hrecorded _ _ _ Hj). by destruct (gather_raised m).
  - intros j tj. rewrite Htasks. destruct (decide (i = j)) as [<-|Hne].
    + rewrite list_lookup_insert_eq by (by eapply lookup_lt_Some). by intros [= <-].
    + rewrite list_lookup_insert_ne by done. apply Hbudget.
  - unfold work_left. rewrite Htasks.
    pose proof (sum_list_insert resumptions_left _ _ _ (next_task cfg u (net i) t) Ht).
    assert (resumptions_left (next_task cfg u (net i) t) < resumptions_left t)%nat; [|lia].
    by destruct t as [| |o gets].
Qed.

Lemma run_budgeted choices m :
  budgeted cfg net m ->
  (work_left m <= length choices)%nat ->
  budgeted cfg net (run cfg net choices m)
  /\ (gather_raised (run cfg net choices m) <> None
      \/ forall i t, tasks (run cfg net choices m) !! i = Some t ->
           exists o gets, t = Done o gets).
Proof using default_limit default_step some_slot.
  revert m. induction choices as [|c choices IH]; intros m Hm Hwork;
    cbn [run]; simpl in Hwork.
  - split; [done|]. right. intros i t Ht. destruct Hm as (_ & _ & Hbudget).
    pose proof (sum_list_insert resumptions_left _ _ _ (Done (Returned None) 0) Ht) as Hsum.
    fold (work_left m) in Hsum. pose proof (Hbudget _ _ Ht) as Ht'.
    destruct t as [|attempts_left gets|o gets]; simpl in *; [lia| |eauto].
    destruct Ht' as (z & -> & Hz). simpl in Hsum. lia.
  - destruct (gather_raised m) eqn:Hraised; [split; [done|]; left; by rewrite Hraised|].
    destruct (ready m) as [|i0 rest] eqn:Hready.
    { split; [done|]. right. destruct Hm as (Hm & _). by eapply nothing_ready_all_done. }
    destruct (chosen_runnable m c i0 rest Hready) as (t & Ht & Hrun).
    destruct (resume_budgeted m _ t Hm Ht Hrun) as (Hm' & Hless).
    apply IH; [done|lia].
Qed.

Lemma new_RequestManager_budgeted urls :
  budgeted cfg net (new_RequestManager cfg urls).
Proof.
  split; [apply new_RequestManager_consistent|]. split.
  - intros i e gets Hi. simpl in Hi. rewrite list_lookup_fmap in Hi.
    by destruct (urls !! i).
  - intros i t Hi. simpl in Hi. rewrite list_lookup_fmap in Hi.
    destruct (urls !! i); simpl in Hi; [|done]. by injection Hi as <-.
Qed.

End Termination.

(** With the budget variable unset, whatever the network does and whatever
    the order of resumptions, six turns of the event loop per URL are enough
    for [make_requests] to end, by returning its list or by raising. *)
Theorem scan_always_ends yarl environ net urls choices :
  environ !! "LIMIT_OF_ATTEMPTS_TO_RETRY" = None ->
  (6 * length urls <= length choices)%nat ->
  exists r, create_make_requests yarl (load_Config environ) urls net choices = Some r.
Proof.
  intros Hunset Hlong. set (cfg := load_Config environ).
  destruct (mapM yarl urls) as [objects|] eqn:Hobjects;
    [|unfold create_make_requests, RequestManager_init; rewrite Hobjects; eauto].
  destruct (create_make_requests_objects yarl cfg urls objects net choices Hobjects)
    as (-> & Hlen).
  assert (Hlimit : LIMIT_OF_ATTEMPTS_TO_RETRY cfg = PyInt 5)
    by (by apply load_Config_default_limit).
  assert (Hslot : (1 <= SIMULTANEOUS_CONCURRENT_TASKS cfg)%nat) by (simpl; lia).
  destruct (new_RequestManager_well_run cfg net objects) as (_ & Hwork).
  destruct (run_budgeted cfg net Hlimit eq_refl Hslot choices _
              (new_RequestManager_budgeted cfg net objects))
    as ((_ & Hrecorded & _) & Hend); [lia|].
  unfold gather.
  destruct (gather_raised _) as [e|] eqn:Hraised; [eauto|].
  destruct Hend as [|Hdone]; [done|].
  assert (Hsome : is_Some (mapM task_result
                    (tasks (run cfg net choices (new_RequestManager cfg objects))))).
  { apply mapM_is_Some, Forall_lookup. intros i t Ht.
    destruct (Hdone i t Ht) as ([v|e] & gets & ->); [by eexists|].
    destruct (Hrecorded _ _ _ Ht). exact Hraised. }
  destruct Hsome as [results ->]. eauto.
Qed.

Lemma scan_always_ends_witness :
  exists r,
    create_make_requests plain_yarl (load_Config ∅)
      [ "https://example.com/blog/wp-json/wp/v2/users";
        "https://example.com/wp-json/wp/v2/users" ]
      broken_json_network (seq 0 12) = Some r.
Proof.
  apply (scan_always_ends plain_yarl ∅ broken_json_network
           [ "https://example.com/blog/wp-json/wp/v2/users";
             "https://example.com/wp-json/wp/v2/users" ] (seq 0 12));
    [reflexivity|simpl; lia].
Defined.

(** ** The scan ends for every budget, and raises only what a worker raised *)

Section Progress.

Variable cfg : Config.
Variable net : nat -> nat -> attempt.
Variable ok : task -> Prop.
Variable left_of : task -> nat.

Hypothesis some_slot : (1 <= SIMULTANEOUS_CONCURRENT_TASKS cfg)%nat.
Hypothesis ok_next : forall u i t, ok t ->
  ok (next_task cfg u (net i) t)
  /\ match t with
     | Done _ _ => True
     | _ => (left_of (next_task cfg u (net i) t) < left_of t)%nat
     end.
Hypothesis ok_done : forall t, ok t -> left_of t = 0%nat -> exists o gets, t = Done o gets.

Lemma resume_orderly m i t :
  orderly ok cfg net m ->
  tasks m !! i = Some t ->
  runnable m t = true ->
  orderly ok cfg net (resume cfg net i m)
  /\ (sum_list (left_of <$> tasks (resume cfg net i m))
      < sum_list (left_of <$> tasks m))%nat.
Proof using some_slot ok_next.
  intros (Hm & Hrecorded & Hsource & Hok) Ht Hrun.
  destruct (lookup_lt_is_Some_2 (_urls m) i) as [u Hu].
  { destruct Hm as (<- & _). by eapply lookup_lt_Some. }
  destruct (resume_next_task cfg net m i t u Hm Ht Hu Hrun) as (Htasks & Hraised).
  destruct (ok_next u i t (Hok _ _ Ht)) as (Hnext & Hless).
  split; [split; [by apply resume_consistent|split; [|split]]|].
  - intros j e gets. rewrite Htasks, Hraised. destruct (decide (i = j)) as [<-|Hne].
    + rewrite list_lookup_insert_eq by (by eapply lookup_lt_Some).
      intros [= ->]. simpl. by destruct (gather_raised m).
    + rewrite list_lookup_insert_ne by done. intros Hj.
      pose proof (Hrecorded _ _ _ Hj). by destruct (gather_raised m).
  - intros e. rewrite Htasks, Hraised. intros Hfirst.
    destruct (gather_raised m) as [e0|] eqn:Hraised0.
    + simpl in Hfirst. injection Hfirst as ->.
      destruct (Hsource e Hraised0) as (j & gets & Hj). exists j, gets.
      rewrite list_lookup_insert_ne; [done|]. intros <-.
      rewrite Ht in Hj. injection Hj as ->. done.
    + destruct (next_task cfg u (net i) t) as [| |[v|e'] gets]; simpl in Hfirst; try done.
      injection Hfirst as ->. exists i, gets.
      by rewrite list_lookup_insert_eq by (by eapply lookup_lt_Some).
  - intros j tj. rewrite Htasks. destruct (decide (i = j)) as [<-|Hne].
    + rewrite list_lookup_insert_eq by (by eapply lookup_lt_Some). by intros [= <-].
    + rewrite list_lookup_insert_ne by done. apply Hok.
  - rewrite Htasks.
    pose proof (sum_list_insert left_of _ _ _ (next_task cfg u (net i) t) Ht).
    assert (left_of (next_task cfg u (net i) t) < left_of t)%nat; [|lia].
    by destruct t as [| |o gets].
Qed.

Lemma run_orderly choices m :
  orderly ok cfg net m ->
  orderly ok cfg net (run cfg net choices m)
  /\ ((sum_list (left_of <$> tasks m) <= length choices)%nat ->
      gather_raised (run cfg net choices m) <> None
      \/ forall i t, tasks (run cfg net choices m) !! i = Some t ->
           exists o gets, t = Done o gets).
Proof using some_slot ok_next ok_done.
  revert m. induction choices as [|c choices IH]; intros m Hm; cbn [run].
  - split; [done|]. intros Hwork. simpl in Hwork. right. intros i t Ht.
    destruct Hm as (_ & _ & _ & Hok). apply ok_done; [by eapply Hok|].
    pose proof (sum_list_insert left_of _ _ _ t Ht) as Hsum.
    rewrite list_insert_id in Hsum by done.
    assert (left_of t <= sum_list (left_of <$> tasks m))%nat; [|lia].
    clear -Ht. revert i Ht. induction (tasks m) as [|t0 ts IHts]; intros [|i] Hi;
      simplify_eq/=; [lia|]. specialize (IHts i Hi). lia.
  - destruct (gather_raised m) eqn:Hraised;
      [split; [done|]; intros _; left; by rewrite Hraised|].
    destruct (ready m) as [|i0 rest] eqn:Hready.
    { split; [done|]. intros _. right. destruct Hm as (Hm & _).
      by eapply nothing_ready_all_done. }
    destruct (chosen_runnable m c i0 rest Hready) as (t & Ht & Hrun).
    destruct (resume_orderly m _ t Hm Ht Hrun) as (Hm' & Hless).
    destruct (IH _ Hm') as (Hend & Hdone). split; [done|].
    intros Hwork. apply Hdone. simpl in Hwork. lia.
Qed.

End Progress.

Lemma new_RequestManager_orderly ok cfg net urls :
  ok Waiting -> orderly ok cfg net (new_RequestManager cfg urls).
Proof.
  intros Hok. split; [apply new_RequestManager_consistent|]. split; [|split].
  - intros i e gets Hi. simpl in Hi. rewrite list_lookup_fmap in Hi.
    by destruct (urls !! i).
  - intros e He. done.
  - intros i t Hi. simpl in Hi. rewrite list_lookup_fmap in Hi.
    destruct (urls !! i); simpl in Hi; [|done]. by injection Hi as <-.
Qed.

Lemma orderly_weaken ok cfg net m :
  orderly ok cfg net m -> orderly (fun _ => True) cfg net m.
Proof. intros (Hm & Hrecorded & Hsource & _). by split; [|split; [|split]]. Qed.

(** With a [str] budget the first exception met makes the handler raise, and
    anything else ends the loop: no iteration goes round. *)
Lemma try_once_str_budget cfg u text a :
  exists o, try_once cfg u (PyStr text) a = Finish o.
Proof.
  assert (Hexc : forall e, exists o, on_exception cfg (PyStr text) e = Finish o).
  { intros e. unfold on_exception, py_sub.
    destruct (except_matches e retryable_errors).
    - destruct (as_int (LIMIT_OF_ATTEMPTS_TO_RETRY cfg)); simpl; eauto.
    - destruct (except_matches e url_fatal_errors); eauto. }
  destruct a as [e|status [v|e]]; simpl; [done| |]; destruct (negb _); eauto.
Qed.

Lemma next_task_str_budget cfg (net : nat -> nat -> attempt) text u i t :
  LIMIT_OF_ATTEMPTS_TO_RETRY cfg = PyStr text ->
  within_str_budget t ->
  within_str_budget (next_task cfg u (net i) t)
  /\ match t with
     | Done _ _ => True
     | _ => (str_resumptions_left (next_task cfg u (net i) t) < str_resumptions_left t)%nat
     end.
Proof.
  intros Hlimit. destruct t as [|attempts_left gets|o gets]; simpl; [| |done].
  - intros _. rewrite Hlimit. destruct (truthy (PyStr text)); simpl; [|split; [done|lia]].
    split; [by eexists|lia].
  - intros (text' & ->).
    destruct (try_once_str_budget cfg u text' (net i gets)) as [o ->]. simpl.
    split; [done|lia].
Qed.

(** The state of a scan from a fresh manager, for every environment. *)
Lemma run_from_new environ net objects choices :
  orderly (fun _ => True) (load_Config environ) net
    (run (load_Config environ) net choices (new_RequestManager (load_Config environ) objects))
  /\ ((6 * length objects <= length choices)%nat ->
      gather_raised
        (run (load_Config environ) net choices
           (new_RequestManager (load_Config environ) objects)) <> None
      \/ forall i t,
           tasks (run (load_Config environ) net choices
                    (new_RequestManager (load_Config environ) objects)) !! i = Some t ->
           exists o gets, t = Done o gets).
Proof.
  set (cfg := load_Config environ).
  assert (Hslot : (1 <= SIMULTANEOUS_CONCURRENT_TASKS cfg)%nat) by (simpl; lia).
  destruct (environ !! "LIMIT_OF_ATTEMPTS_TO_RETRY") as [text|] eqn:Hvar.
  - assert (Hlimit : LIMIT_OF_ATTEMPTS_TO_RETRY cfg = PyStr text)
      by (by apply load_Config_env_limit).
    destruct (run_orderly cfg net within_str_budget str_resumptions_left Hslot
                (fun u i t => next_task_str_budget cfg net text u i t Hlimit)) with
      (choices := choices) (m := new_RequestManager cfg objects) as (Hend & Hdone).
    + intros [|attempts_left gets|o gets] _ Hzero; simpl in Hzero; [lia..|eauto].
    + by apply new_RequestManager_orderly.
    + split; [by eapply orderly_weaken|]. intros Hlong. apply Hdone. simpl.
      clear -Hlong. revert Hlong. generalize (length choices).
      induction objects as [|u objects IH]; intros n Hn; csimpl; [lia|].
      simpl in Hn. specialize (IH (n - 2)%nat). lia.
  - assert (Hlimit : LIMIT_OF_ATTEMPTS_TO_RETRY cfg = PyInt 5)
      by (by apply load_Config_default_limit).
    destruct (run_orderly cfg net within_int_budget resumptions_left Hslot
                (next_task_int_budget cfg net Hlimit eq_refl Hslot)) with
      (choices := choices) (m := new_RequestManager cfg objects) as (Hend & Hdone).
    + intros [|attempts_left gets|o gets] Hok Hzero; simpl in Hzero; [lia| |eauto].
      destruct Hok as (z & -> & Hz). simpl in Hzero. lia.
    + by apply new_RequestManager_orderly.
    + split; [by eapply orderly_weaken|]. intros Hlong. apply Hdone.
      destruct (new_RequestManager_well_run cfg net objects) as (_ & Hwork).
      unfold work_left in Hwork. rewrite Hwork. done.
Qed.

(** [gather] raises what one of the workers raised. *)
Lemma gather_raised_source ok cfg net m e :
  orderly ok cfg net m ->
  gather m = Some (Raised e) ->
  exists i u fuel gets k,
    _urls m !! i = Some u /\ _fetch fuel cfg u (net i) 0 = Some (Raised e, gets, k).
Proof.
  intros ((Hlen & _ & added & Hadded & _ & Htasks) & _ & Hsource & _) Hgather.
  unfold gather in Hgather.
  destruct (gather_raised m) as [e'|] eqn:Hraised;
    [|by destruct (mapM task_result (tasks m))].
  injection Hgather as ->.
  destruct (Hsource e Hraised) as (i & gets & Ht).
  destruct (lookup_lt_is_Some_2 (_urls m) i) as [u Hu].
  { rewrite <- Hlen. by eapply lookup_lt_Some. }
  destruct (lookup_lt_is_Some_2 added i) as [k Hk].
  { rewrite Hadded. by eapply lookup_lt_Some. }
  destruct (Htasks _ _ _ _ Ht Hu Hk) as [fuel Hfetch]. eauto 10.
Qed.

(** Once every task is done, or one has raised, [gather] has its result. *)
Lemma gather_ends ok cfg net m :
  orderly ok cfg net m ->
  (gather_raised m <> None
   \/ forall i t, tasks m !! i = Some t -> exists o gets, t = Done o gets) ->
  exists r, gather m = Some r.
Proof.
  intros (_ & Hrecorded & _) Hend. unfold gather.
  destruct (gather_raised m) as [e|] eqn:Hraised; [eauto|].
  destruct Hend as [|Hdone]; [done|].
  assert (Hsome : is_Some (mapM task_result (tasks m))).
  { apply mapM_is_Some, Forall_lookup. intros i t Ht.
    destruct (Hdone i t Ht) as ([v|e] & gets & ->); [by eexists|].
    destruct (Hrecorded _ _ _ Ht). exact Hraised. }
  destruct Hsome as [results ->]. eauto.
Qed.

(** Two scans of the same URLs on the same network that both end: if one
    returns a list, the other returns the same list. *)
Lemma gather_agree ok cfg net m m' results r' :
  consistent cfg net m ->
  orderly ok cfg net m' ->
  _urls m' = _urls m ->
  gather m = Some (Returned results) ->
  gather m' = Some r' ->
  r' = Returned results.
Proof.
  intros Hm Hm' Hurls Hgather Hgather'.
  destruct (gather_returned _ _ _ _ Hm Hgather) as (Hlen & added & _ & _ & Hresults).
  destruct r' as [results'|e].
  - destruct Hm' as (Hm' & _).
    destruct (gather_returned _ _ _ _ Hm' Hgather') as (Hlen' & added' & _ & _ & Hresults').
    rewrite Hurls in Hlen', Hresults'. f_equal.
    apply list_eq. intros i.
    destruct (_urls m !! i) as [u|] eqn:Hu.
    + destruct (Hresults i u Hu) as (r & fuel & gets & k & -> & _ & Hfetch).
      destruct (Hresults' i u Hu) as (r' & fuel' & gets' & k' & -> & _ & Hfetch').
      pose proof (fetch_deterministic _ _ _ _ _ _ _ _ Hfetch Hfetch'). by simplify_eq.
    + apply lookup_ge_None in Hu.
      rewrite !(proj2 (lookup_ge_None _ _)) by lia. done.
  - destruct (gather_raised_source _ _ _ _ _ Hm' Hgather')
      as (i & u & fuel' & gets' & k' & Hu & Hfetch').
    rewrite Hurls in Hu.
    destruct (Hresults i u Hu) as (r & fuel & gets & k & _ & _ & Hfetch).
    pose proof (fetch_deterministic _ _ _ _ _ _ _ _ Hfetch Hfetch'). by simplify_eq.
Qed.

(** ** The results keep the order of the candidates *)

(** C4: a scan of a candidate list that is given six turns of the event loop
    per candidate ends, for every environment, network and order of
    resumptions.  When [make_requests] returns, its list has one entry per
    candidate, the [i]-th being what [_fetch] returns for the [i]-th
    candidate, and every other order of resumptions gives that same list;
    [main] then hands to [write_results_to_file] that list without its [None]
    entries: no longer than the candidate list, and in the order of the
    candidates.  When [make_requests] raises instead, it raises what the
    [_fetch] of one of the candidates raised, and [main] ends with it. *)
Theorem make_requests_keeps_input_order yarl json_dumps w objects :
  (6 * length objects <= length (choices w))%nat ->
  exists r,
    fst (make_requests (load_Config (environ w)) (network w) (choices w)
           (new_RequestManager (load_Config (environ w)) objects)) = Some r
    /\ match r with
       | Returned results =>
           length results = length objects
           /\ (forall i u, objects !! i = Some u ->
                 exists r' fuel gets failed',
                   results !! i = Some r'
                   /\ _fetch fuel (load_Config (environ w)) u (network w i) 0
                      = Some (Returned r', gets, failed'))
           /\ (forall choices',
                 ((6 * length objects <= length choices')%nat ->
                  fst (make_requests (load_Config (environ w)) (network w) choices'
                         (new_RequestManager (load_Config (environ w)) objects))
                  = Some (Returned results))
                 /\ (forall r',
                       fst (make_requests (load_Config (environ w)) (network w) choices'
                              (new_RequestManager (load_Config (environ w)) objects))
                       = Some r' ->
                       r' = Returned results))
       | Raised e =>
           exists i u fuel gets failed',
             objects !! i = Some u
             /\ _fetch fuel (load_Config (environ w)) u (network w i) 0
                = Some (Raised e, gets, failed')
       end
    /\ forall args schema,
         cli (load_Config (environ w)) (argv w) = Returned args ->
         logger_initialisation (environ w) (ns_verbose args) = Returned () ->
         probe_target_schema (https_get w) (ns_domain args) = Returned schema ->
         mapM yarl (targets_to_check (schema +:+ "://" +:+ ns_domain args)) = Some objects ->
         match r with
         | Returned results =>
             main yarl json_dumps w
             = Some (write_results_to_file json_dumps (load_Config (environ w))
                       (Some <$> omap id results) (disk w))
             /\ (length (omap id results) <= length objects)%nat
             /\ Some <$> omap id results `sublist_of` results
             /\ url <$> omap id results `sublist_of` str <$> objects
         | Raised e => main yarl json_dumps w = Some (Raised e, disk w)
         end.
Proof.
  intros Hlong. set (cfg := load_Config (environ w)).
  destruct (run_from_new (environ w) (network w) objects (choices w)) as (Hm & Hend).
  fold cfg in Hm, Hend.
  destruct (gather_ends _ _ _ _ Hm (Hend Hlong)) as [r Hr].
  exists r. unfold make_requests. cbn [fst]. split; [done|].
  assert (Hsub : forall results : list fetched, Some <$> omap id results `sublist_of` results).
  { intros results. rewrite <- filter_truthy_omap. apply sublist_filter. }
  pose proof Hm as (Hcons & _).
  split.
  - destruct r as [results|e].
    + destruct (gather_returned _ _ _ _ Hcons Hr) as (Hlen & added & _ & _ & Hresults).
      rewrite run_urls in Hlen, Hresults. simpl in Hlen, Hresults.
      split; [done|]. split.
      * intros i u Hu.
        destruct (Hresults i u Hu) as (r & fuel & gets & k & Hri & _ & Hfetch). eauto 10.
      * intros choices'.
        destruct (run_from_new (environ w) (network w) objects choices') as (Hm' & Hend').
        fold cfg in Hm', Hend'.
        assert (Hsame : forall r',
                  gather (run cfg (network w) choices' (new_RequestManager cfg objects))
                  = Some r' -> r' = Returned results).
        { intros r' Hr'.
          eapply (gather_agree _ cfg (network w) _ _ results r' Hcons Hm');
            [by rewrite !run_urls|done|done]. }
        split; [|done]. intros Hlong'.
        destruct (gather_ends _ _ _ _ Hm' (Hend' Hlong')) as [r' Hr'].
        rewrite Hr'. f_equal. by apply Hsame.
    + destruct (gather_raised_source _ _ _ _ _ Hm Hr)
        as (i & u & fuel & gets & k & Hu & Hfetch).
      rewrite run_urls in Hu. eauto 10.
  - intros args schema Hcli Hlog Hprobe Hparse. unfold main. fold cfg.
    rewrite Hcli. cbn [define_config_from_cmd verbose domain]. rewrite Hlog, Hprobe.
    destruct (create_make_requests_objects yarl cfg _ objects (network w) (choices w)
                Hparse) as (-> & _).
    rewrite Hr. destruct r as [results|e]; [|done].
    rewrite filter_truthy_omap. split; [done|].
    destruct (gather_returned _ _ _ _ Hcons Hr) as (Hlen & _).
    rewrite run_urls in Hlen. simpl in Hlen.
    split; [|split; [apply Hsub|]].
    + pose proof (sublist_length _ _ (Hsub results)) as Hle.
      rewrite length_fmap in Hle. lia.
    + pose proof (gather_entries _ _ _ _ Hcons Hr) as (_ & Hentries).
      by rewrite run_urls in Hentries.
Qed.

Lemma make_requests_keeps_input_order_witness :
  exists r,
    fst (make_requests (load_Config (environ sample_world)) (network sample_world)
           (choices sample_world)
           (new_RequestManager (load_Config (environ sample_world)) sample_objects))
    = Some r.
Proof.
  destruct (make_requests_keeps_input_order plain_yarl (fun _ => "[]") sample_world
              sample_objects) as (r & Hr & _);
    [apply Nat.leb_le; vm_compute; reflexivity|].
  exists r. exact Hr.
Defined.

(** ** An exception that no clause names *)

(** C1, what the code does instead: a 200 reply whose body is not JSON makes
    [response.json()] raise [JSONDecodeError], which neither [except] clause
    of [_fetch] names.  [_fetch] ends with it after one GET, [gather]
    re-raises it and [make_requests] raises, the record of the second URL
    being lost; in a run of the script the exception is logged and no results
    file is written.  The same reply is contained when [response.json()]
    fails with [UnicodeDecodeError] or with [ContentTypeError]: the scan then
    returns the outcomes of both URLs. *)
Theorem scan_aborted_by_json_decode_error :
  _fetch 5 (load_Config ∅) {| str := "https://example.com/blog/wp-json/wp/v2/users" |}
    (broken_body_network JSONDecodeError 0) 0
  = Some (Raised JSONDecodeError, 1%nat, 0)
  /\ create_make_requests plain_yarl (load_Config ∅)
       [ "https://example.com/blog/wp-json/wp/v2/users";
         "https://example.com/wp-json/wp/v2/users" ]
       (broken_body_network JSONDecodeError) (seq 0 12)
     = Some (Raised JSONDecodeError)
  /\ script plain_yarl (fun _ => "[]") broken_json_world
     = Some {| exit_status := 0; logged_exceptions := [JSONDecodeError];
               disk_after := {| files := ∅; unwritable := ∅ |} |}
  /\ (forall e, e = UnicodeDecodeError \/ e = ContentTypeError ->
        create_make_requests plain_yarl (load_Config ∅)
          [ "https://example.com/blog/wp-json/wp/v2/users";
            "https://example.com/wp-json/wp/v2/users" ]
          (broken_body_network e) (seq 0 12)
        = Some (Returned
                  [ None;
                    Some {| url := "https://example.com/wp-json/wp/v2/users";
                            status_code := 200; body := admin_body |} ])).
Proof.
  split; [vm_compute; reflexivity|]. split; [vm_compute; reflexivity|].
  split; [vm_compute; reflexivity|].
  intros e [->| ->]; vm_compute; reflexivity.
Qed.
